(** * Audio job pipeline of the transcription server (server.js)

    A shallow embedding of the Express/WebSocket server: the download and
    listing endpoints, the one-shot upload handler, the streaming message
    handler and the placeholder transcription backend, followed by the
    properties of the storage-naming, validation, cleanup and notification
    discipline.

    Conventions of the embedding.
    - A JavaScript string is the list of its UTF-16 code units ([jsstring]).
    - A value that may be [undefined] is an [option]; [None] is [undefined].
    - Effects (filesystem, WebSocket sends, the HTTP response, timers, HTTP
      requests to Ollama) are threaded through a state-and-exception monad
      [M]; what the outside world answers (clock, uuid, random draw, ffmpeg,
      axios, filesystem failures) is read from a [World] record.
    - One handler invocation runs in isolation: interleaving with other
      requests is not modelled. *)

From Stdlib Require Import ZArith NArith QArith Qround String Ascii List DecimalZ.
From stdpp Require Import gmap list sorting.

Set Warnings "-register-all".
Local Open Scope N_scope.

(** ** JavaScript strings *)

Abbreviation jsstring := (list N) (only parsing).

Fixpoint bytes_of_string (s : string) : list N :=
  match s with
  | EmptyString => []
  | String a s' => N_of_ascii a :: bytes_of_string s'
  end.

(** Source text is UTF-8; a literal of the program denotes the UTF-16 code
    units of its characters. All literals of server.js are within the Basic
    Multilingual Plane (one to three bytes per character). *)
Fixpoint utf16_of_utf8 (bs : list N) : jsstring :=
  match bs with
  | [] => []
  | b0 :: r0 =>
      if b0 <? 128 then b0 :: utf16_of_utf8 r0
      else
        match r0 with
        | [] => [b0]
        | b1 :: r1 =>
            if b0 <? 224 then ((b0 mod 32) * 64 + b1 mod 64) :: utf16_of_utf8 r1
            else
              match r1 with
              | [] => [b0; b1]
              | b2 :: r2 =>
                  ((b0 mod 16) * 4096 + (b1 mod 64) * 64 + b2 mod 64)
                    :: utf16_of_utf8 r2
              end
        end
  end.

Definition js (s : string) : jsstring := utf16_of_utf8 (bytes_of_string s).
Arguments js s%_string.

Definition chr (a : ascii) : N := N_of_ascii a.
Arguments chr a%_char.

(** [Number.prototype.toString] on an integer (as in a template literal
    [${timestamp}]): decimal digits, with a leading minus sign when negative.
    This is the rendering of every integer below 10^21 in absolute value,
    which covers [Date.now()] and file sizes. *)
Fixpoint uint_units (d : Decimal.uint) : jsstring :=
  match d with
  | Decimal.Nil => []
  | Decimal.D0 d' => 48 :: uint_units d'
  | Decimal.D1 d' => 49 :: uint_units d'
  | Decimal.D2 d' => 50 :: uint_units d'
  | Decimal.D3 d' => 51 :: uint_units d'
  | Decimal.D4 d' => 52 :: uint_units d'
  | Decimal.D5 d' => 53 :: uint_units d'
  | Decimal.D6 d' => 54 :: uint_units d'
  | Decimal.D7 d' => 55 :: uint_units d'
  | Decimal.D8 d' => 56 :: uint_units d'
  | Decimal.D9 d' => 57 :: uint_units d'
  end.

Definition Number_toString (z : Z) : jsstring :=
  match Z.to_int z with
  | Decimal.Pos d => uint_units d
  | Decimal.Neg d => chr "-" :: uint_units d
  end.

(** [String.prototype.endsWith]. *)
Fixpoint startsWith (s p : jsstring) : bool :=
  match p, s with
  | [], _ => true
  | _ :: _, [] => false
  | c :: p', d :: s' => (c =? d) && startsWith s' p'
  end.

Definition endsWith (s suffix : jsstring) : bool :=
  startsWith (rev s) (rev suffix).

(** [String.prototype.trim]: WhiteSpace and LineTerminator code points of
    ECMAScript are removed at both ends. *)
Definition is_js_whitespace (c : N) : bool :=
  (c =? 9) || (c =? 10) || (c =? 11) || (c =? 12) || (c =? 13) || (c =? 32)
  || (c =? 160) || (c =? 5760) || ((8192 <=? c) && (c <=? 8202))
  || (c =? 8232) || (c =? 8233) || (c =? 8239) || (c =? 8287)
  || (c =? 12288) || (c =? 65279).

Fixpoint trimStart (s : jsstring) : jsstring :=
  match s with
  | [] => []
  | c :: s' => if is_js_whitespace c then trimStart s' else s
  end.

Definition trim (s : jsstring) : jsstring :=
  rev (trimStart (rev (trimStart s))).

(** ** Regular expressions

    The patterns of the program use character classes, literals,
    concatenation, alternation and [+]; matching is by Brzozowski
    derivatives. [lang] is the set of strings a pattern denotes. *)

Inductive regex : Type :=
| RVoid
| REps
| RClass (p : N -> bool)
| RCat (r1 r2 : regex)
| RAlt (r1 r2 : regex)
| RStar (r : regex).

Definition RPlus (r : regex) : regex := RCat r (RStar r).

Fixpoint RLit (s : jsstring) : regex :=
  match s with
  | [] => REps
  | c :: s' => RCat (RClass (N.eqb c)) (RLit s')
  end.

Fixpoint nullable (r : regex) : bool :=
  match r with
  | RVoid => false
  | REps => true
  | RClass _ => false
  | RCat r1 r2 => nullable r1 && nullable r2
  | RAlt r1 r2 => nullable r1 || nullable r2
  | RStar _ => true
  end.

Fixpoint deriv (c : N) (r : regex) : regex :=
  match r with
  | RVoid => RVoid
  | REps => RVoid
  | RClass p => if p c then REps else RVoid
  | RCat r1 r2 =>
      if nullable r1
      then RAlt (RCat (deriv c r1) r2) (deriv c r2)
      else RCat (deriv c r1) r2
  | RAlt r1 r2 => RAlt (deriv c r1) (deriv c r2)
  | RStar r' => RCat (deriv c r') (RStar r')
  end.

Fixpoint rmatch (r : regex) (s : jsstring) : bool :=
  match s with
  | [] => nullable r
  | c :: s' => rmatch (deriv c r) s'
  end.

Inductive lang : regex -> jsstring -> Prop :=
| LEps : lang REps []
| LClass p c : p c = true -> lang (RClass p) [c]
| LCat r1 r2 s1 s2 : lang r1 s1 -> lang r2 s2 -> lang (RCat r1 r2) (s1 ++ s2)
| LAltL r1 r2 s : lang r1 s -> lang (RAlt r1 r2) s
| LAltR r1 r2 s : lang r2 s -> lang (RAlt r1 r2) s
| LStarNil r : lang (RStar r) []
| LStarApp r s1 s2 :
    lang r s1 -> lang (RStar r) s2 -> lang (RStar r) (s1 ++ s2).

(** The class [[a-zA-Z0-9_-]]. *)
Definition in_range (lo hi c : N) : bool := (lo <=? c) && (c <=? hi).

Definition filename_char (c : N) : bool :=
  in_range (chr "a") (chr "z") c || in_range (chr "A") (chr "Z") c
  || in_range (chr "0") (chr "9") c || (c =? chr "_") || (c =? chr "-").

(** [/^[a-zA-Z0-9_-]+\.(mp3|wav)$/]. Without the [m] flag [^] and [$] anchor
    the pattern to the whole input, so [filename.match(re)] is non-null
    exactly when the whole string is in the language of the pattern. *)
Definition audio_filename_re : regex :=
  RCat (RPlus (RClass filename_char))
       (RCat (RLit (js "."))
             (RAlt (RLit (js "mp3")) (RLit (js "wav")))).

Definition valid_audio_filename (filename : jsstring) : bool :=
  rmatch audio_filename_re filename.

(** [audioData.replace(/^data:audio\/[^;]+;base64,/, '')]: the class
    [[^;]] cannot consume the [;] that must follow it, so the only possible
    match is: the literal, a maximal non-empty run of non-[;] units, the
    literal [;base64,]. When there is no match the string is unchanged. *)
Fixpoint strip_prefix (p s : jsstring) : option jsstring :=
  match p, s with
  | [], _ => Some s
  | _ :: _, [] => None
  | c :: p', d :: s' => if c =? d then strip_prefix p' s' else None
  end.

Fixpoint skip_not (c : N) (s : jsstring) : jsstring :=
  match s with
  | [] => []
  | d :: s' => if d =? c then s else skip_not c s'
  end.

Definition strip_data_url (audioData : jsstring) : jsstring :=
  match strip_prefix (js "data:audio/") audioData with
  | None => audioData
  | Some rest =>
      match rest with
      | [] => audioData
      | d :: _ =>
          if d =? chr ";" then audioData
          else
            match strip_prefix (js ";base64,") (skip_not (chr ";") rest) with
            | Some payload => payload
            | None => audioData
            end
      end
  end.

(** ** JSON values and JavaScript coercions *)

(** A value produced by [JSON.parse]. Numbers are kept as the rational they
    denote. An object is the list of its own properties (keys unique). *)
Inductive json : Type :=
| JNull
| JBool (b : bool)
| JNum (q : Q)
| JStr (s : jsstring)
| JArr (items : list json)
| JObj (fields : list (jsstring * json)).

(** A JavaScript value in a position where it may be [undefined]. *)
Abbreviation value := (option json) (only parsing).

Definition jsstring_eqb (a b : jsstring) : bool := bool_decide (a = b).

Fixpoint fields_get (k : jsstring) (fields : list (jsstring * json)) : value :=
  match fields with
  | [] => None
  | (k', v) :: rest => if jsstring_eqb k k' then Some v else fields_get k rest
  end.

(** Property read [v.k] on a non-null value: own property of an object,
    [undefined] on anything else a JSON text can denote. *)
Definition get_prop (v : json) (k : jsstring) : value :=
  match v with
  | JObj fields => fields_get k fields
  | _ => None
  end.

(** ToBoolean. *)
Definition truthy (v : value) : bool :=
  match v with
  | None => false
  | Some JNull => false
  | Some (JBool b) => b
  | Some (JNum q) => negb (Qeq_bool q 0)
  | Some (JStr s) => match s with [] => false | _ :: _ => true end
  | Some (JArr _) => true
  | Some (JObj _) => true
  end.

(** [a || b]. *)
Definition js_or (a b : value) : value := if truthy a then a else b.

(** Destructuring default [{ k = d }]: the default applies to [undefined]
    only. *)
Definition default_to (d : json) (v : value) : json :=
  match v with
  | None => d
  | Some x => x
  end.

(** An object literal handed to [JSON.stringify] / [res.json]: properties
    whose value is [undefined] are not serialised. *)
Fixpoint mkobj (props : list (jsstring * value)) : list (jsstring * json) :=
  match props with
  | [] => []
  | (k, None) :: rest => mkobj rest
  | (k, Some v) :: rest => (k, v) :: mkobj rest
  end.

(** ** Filesystem, responses and the outside world *)

Inductive Dir : Type := AudioDir | UploadsDir.

(** [path.join(dir, name)]. For a [name] that is a plain entry name (no
    separator, no dot segment) this is the entry [name] of [dir]; the handlers
    only touch the filesystem with such names. *)
Record path : Type := path_join { p_dir : Dir; p_name : jsstring }.

Record file : Type := mkfile {
  f_bytes : list N;
  f_birthtime : Z;
  f_mtime : Z
}.

Record FS : Type := mkFS {
  audio : gmap (list N) file;
  uploads : gmap (list N) file
}.

Definition dir_of (fs : FS) (d : Dir) : gmap (list N) file :=
  match d with
  | AudioDir => audio fs
  | UploadsDir => uploads fs
  end.

Definition set_dir (fs : FS) (d : Dir) (m : gmap (list N) file) : FS :=
  match d with
  | AudioDir => mkFS m (uploads fs)
  | UploadsDir => mkFS (audio fs) m
  end.

Definition fs_lookup (fs : FS) (p : path) : option file :=
  dir_of fs (p_dir p) !! p_name p.

Inductive fs_op : Type :=
| OpExists (p : path)
| OpStat (p : path)
| OpRead (p : path)
| OpWrite (p : path)
| OpUnlink (p : path)
| OpReaddir (d : Dir).

(** One element of the [files] array of the listing. *)
Record entry : Type := mkentry {
  e_filename : jsstring;
  e_size : N;
  e_created : Z;
  e_modified : Z
}.

Inductive body : Type :=
| BJson (fields : list (jsstring * json))
| BFiles (files : list entry)
| BStream (bytes : list N).

Record response : Type := mkresponse {
  status : N;
  headers : list (jsstring * jsstring);
  res_body : body
}.

(** The two prompt templates, kept symbolic: the interpolated values in
    order. *)
Inductive prompt : Type :=
| PromptFromTo (sourceLanguage targetLanguage : json) (text : value)
| PromptTo (targetLanguage text : jsstring).

Inductive request : Type :=
| PostGenerate (p : prompt)
| GetTags.

(** Error objects are represented by their [message]. *)
Abbreviation exn := (list N) (only parsing).

(** What the environment answers during one handler invocation. *)
Record World : Type := mkWorld {
  Date_now : Z;                          (* Date.now() *)
  toISOString : jsstring;                (* new Date().toISOString() *)
  uuidv4 : jsstring;                     (* uuidv4() *)
  Math_random : Q;                       (* Math.random(), in [0,1) *)
  Buffer_from_base64 : jsstring -> list N;
  fs_clock : Z;                          (* time stamped on written files *)
  writeFile_error : option exn;          (* fs.promises.writeFile rejects *)
  unlink_error : option exn;             (* fs.promises.unlink rejects *)
  ffmpeg_outcome : exn + list N;         (* 'error' event, or encoded bytes *)
  axios_post_outcome : exn + value;      (* rejects, or response.data.response *)
  axios_get_outcome : exn + value;       (* rejects, or response.data.models *)
  msg_ENOENT : jsstring;
  msg_TypeError : jsstring
}.

Record State : Type := mkState {
  st_fs : FS;
  st_ops : list fs_op;          (* filesystem accesses, oldest first *)
  st_sent : list json;          (* ws.send, oldest first *)
  st_res : option response;     (* what was sent on res *)
  st_requests : list request;   (* axios calls, oldest first *)
  st_timers : list N            (* awaited setTimeout delays, in ms *)
}.

(** ** The monad of handlers *)

Definition M (A : Type) : Type := World -> State -> (exn + A) * State.

Definition ret {A} (a : A) : M A := fun _ s => (inr a, s).

Definition bind {A B} (m : M A) (k : A -> M B) : M B :=
  fun W s =>
    match m W s with
    | (inl e, s') => (inl e, s')
    | (inr a, s') => k a W s'
    end.

Definition throw {A} (e : exn) : M A := fun _ s => (inl e, s).

Definition try_catch {A} (m : M A) (h : exn -> M A) : M A :=
  fun W s =>
    match m W s with
    | (inl e, s') => h e W s'
    | (inr a, s') => (inr a, s')
    end.

Definition try_finally {A} (m : M A) (f : M unit) : M A :=
  fun W s =>
    match m W s with
    | (r, s') =>
        match f W s' with
        | (inl e, s'') => (inl e, s'')
        | (inr _, s'') => (r, s'')
        end
    end.

Definition ask : M World := fun W s => (inr W, s).
Definition get : M State := fun _ s => (inr s, s).
Definition modify (f : State -> State) : M unit := fun _ s => (inr tt, f s).

Notation "x <- m ;; k" := (bind m (fun x => k))
  (at level 100, m at next level, right associativity).
Notation "m ;; k" := (bind m (fun _ => k))
  (at level 100, right associativity).

Definition with_fs (f : FS -> FS) (s : State) : State :=
  mkState (f (st_fs s)) (st_ops s) (st_sent s) (st_res s) (st_requests s)
          (st_timers s).

Definition log_op (o : fs_op) : M unit :=
  modify (fun s => mkState (st_fs s) (st_ops s ++ [o]) (st_sent s) (st_res s)
                           (st_requests s) (st_timers s)).

(** [ws.send(JSON.stringify({...}))]. *)
Definition ws_send (props : list (jsstring * value)) : M unit :=
  modify (fun s => mkState (st_fs s) (st_ops s) (st_sent s ++ [JObj (mkobj props)])
                           (st_res s) (st_requests s) (st_timers s)).

Definition res_send (r : response) : M unit :=
  modify (fun s => mkState (st_fs s) (st_ops s) (st_sent s) (Some r)
                           (st_requests s) (st_timers s)).

(** [res.status(code).json({...})]; [res.json] is [res_json 200]. *)
Definition res_json (code : N) (props : list (jsstring * value)) : M unit :=
  res_send (mkresponse code [] (BJson (mkobj props))).

Definition setTimeout_await (ms : N) : M unit :=
  modify (fun s => mkState (st_fs s) (st_ops s) (st_sent s) (st_res s)
                           (st_requests s) (st_timers s ++ [ms])).

Definition log_request (r : request) : M unit :=
  modify (fun s => mkState (st_fs s) (st_ops s) (st_sent s) (st_res s)
                           (st_requests s ++ [r]) (st_timers s)).

(** *** Filesystem primitives *)

Definition existsSync (p : path) : M bool :=
  log_op (OpExists p) ;;
  s <- get ;;
  ret (match fs_lookup (st_fs s) p with Some _ => true | None => false end).

Definition statSync (p : path) : M file :=
  log_op (OpStat p) ;;
  s <- get ;;
  W <- ask ;;
  match fs_lookup (st_fs s) p with
  | Some f => ret f
  | None => throw (msg_ENOENT W)
  end.

(** Creating or overwriting a file: the birth time of an existing entry is
    kept. *)
Definition put_file (p : path) (bytes : list N) (now : Z) (fs : FS) : FS :=
  let birth :=
    match fs_lookup fs p with
    | Some old => f_birthtime old
    | None => now
    end in
  set_dir fs (p_dir p) (<[p_name p := mkfile bytes birth now]> (dir_of fs (p_dir p))).

Definition writeFile (p : path) (bytes : list N) : M unit :=
  log_op (OpWrite p) ;;
  W <- ask ;;
  match writeFile_error W with
  | Some e => throw e
  | None => modify (with_fs (put_file p bytes (fs_clock W)))
  end.

Definition remove_file (p : path) (fs : FS) : FS :=
  set_dir fs (p_dir p) (delete (p_name p) (dir_of fs (p_dir p))).

Definition unlink (p : path) : M unit :=
  log_op (OpUnlink p) ;;
  W <- ask ;;
  s <- get ;;
  match unlink_error W with
  | Some e => throw e
  | None =>
      match fs_lookup (st_fs s) p with
      | Some _ => modify (with_fs (remove_file p))
      | None => throw (msg_ENOENT W)
      end
  end.

Definition readdirSync (d : Dir) : M (list jsstring) :=
  log_op (OpReaddir d) ;;
  s <- get ;;
  ret (map fst (map_to_list (dir_of (st_fs s) d))).

(** [fs.createReadStream(p).pipe(res)]: the bytes that reach the response. *)
Definition createReadStream (p : path) : M (list N) :=
  log_op (OpRead p) ;;
  s <- get ;;
  W <- ask ;;
  match fs_lookup (st_fs s) p with
  | Some f => ret (f_bytes f)
  | None => throw (msg_ENOENT W)
  end.

Fixpoint mapM {A B} (f : A -> M B) (l : list A) : M (list B) :=
  match l with
  | [] => ret []
  | x :: l' => y <- f x ;; ys <- mapM f l' ;; ret (y :: ys)
  end.

(** [arr[i]] for an integral index: [undefined] out of range. *)
Definition array_get {A} (l : list A) (i : Z) : option A :=
  if (i <? 0)%Z then None else l !! Z.to_nat i.

(** A string-or-undefined interpolated in a template literal. *)
Definition interpolate (o : option jsstring) : jsstring :=
  match o with
  | Some s => s
  | None => js "undefined"
  end.

Definition nonempty (s : jsstring) : bool :=
  match s with
  | [] => false
  | _ :: _ => true
  end.

(** [Array.prototype.sort(cmp)]: a stable sort; with a consistent comparator
    its result is determined, and is computed here by stable insertion. *)
Fixpoint sort_insert {A} (cmp : A -> A -> Z) (x : A) (l : list A) : list A :=
  match l with
  | [] => [x]
  | y :: l' =>
      if (0 <? cmp x y)%Z then y :: sort_insert cmp x l' else x :: y :: l'
  end.

Definition Array_sort {A} (cmp : A -> A -> Z) (l : list A) : list A :=
  foldr (sort_insert cmp) [] l.

(** ** Audio processing utilities *)

(** [convertToMp3]: ffmpeg reads [inputPath]; on its ['end'] event the
    encoded bytes are at [outputPath], on ['error'] the promise rejects with
    the engine's error (the filesystem is then taken as unchanged). *)
Definition convertToMp3 (inputPath outputPath : path) : M path :=
  log_op (OpRead inputPath) ;;
  W <- ask ;;
  match ffmpeg_outcome W with
  | inl err => throw err
  | inr bytes =>
      log_op (OpWrite outputPath) ;;
      modify (with_fs (put_file outputPath bytes (fs_clock W))) ;;
      ret outputPath
  end.

(** [saveAudioChunk]. A value that comes out of [JSON.parse] is never a
    [Buffer], so a non-string falls through to the [throw]. *)
Definition saveAudioChunk (audioData : value) (filename : jsstring) : M path :=
  let filePath := path_join AudioDir filename in
  try_catch
    (W <- ask ;;
     buffer <- match audioData with
               | Some (JStr s) =>
                   let base64Data := strip_data_url s in
                   ret (Buffer_from_base64 W base64Data)
               | _ => throw (js "Invalid audio data format")
               end ;;
     writeFile filePath buffer ;;
     ret filePath)
    (fun error => throw error).

Definition mockTranscriptions : list jsstring :=
  [ js "Hola, este es un ejemplo de transcripción de audio.";
    js "Audio transcrito correctamente desde el archivo MP3.";
    js "El sistema de transcripción está funcionando correctamente.";
    js "Procesando archivo de audio para generar texto.";
    js "Transcripción automática generada con éxito." ].

(** [Math.round(size / 1024)] for a byte count: halves round up. *)
Definition fileSizeKB_of (size : N) : N := (size + 512) / 1024.

(** [Math.min(2000, fileSizeKB * 10)]. *)
Definition processingTime_of (fileSizeKB : N) : N := N.min 2000 (fileSizeKB * 10).

(** [Math.floor(r * mockTranscriptions.length)] (the product taken exactly). *)
Definition randomIndex_of (r : Q) : Z :=
  Qfloor (r * inject_Z (Z.of_nat (length mockTranscriptions))).

Definition mock_text (randomIndex : Z) (fileSizeKB : N) : jsstring :=
  interpolate (array_get mockTranscriptions randomIndex)
    ++ js " (Archivo: " ++ Number_toString (Z.of_N fileSizeKB) ++ js "KB)".

(** [transcribeAudio], the active (mock) variant. *)
Definition transcribeAudio (audioFilePath : path) : M jsstring :=
  try_catch
    (found <- existsSync audioFilePath ;;
     (if found then ret tt else throw (js "Audio file not found")) ;;
     stats <- statSync audioFilePath ;;
     let fileSizeKB := fileSizeKB_of (N.of_nat (length (f_bytes stats))) in
     let processingTime := processingTime_of fileSizeKB in
     setTimeout_await processingTime ;;
     W <- ask ;;
     let randomIndex := randomIndex_of (Math_random W) in
     ret (mock_text randomIndex fileSizeKB))
    (fun error => throw error).

(** [axios.post(`${OLLAMA_URL}/api/generate`, {model, prompt, stream:false})]
    followed by the read of [response.data.response]. *)
Definition axios_post_generate (p : prompt) : M value :=
  log_request (PostGenerate p) ;;
  W <- ask ;;
  match axios_post_outcome W with
  | inl err => throw err
  | inr v => ret v
  end.

(** [v.trim()] on a value that may not be a string. *)
Definition call_trim (v : value) : M jsstring :=
  match v with
  | Some (JStr s) => ret (trim s)
  | _ => W <- ask ;; throw (msg_TypeError W)
  end.

(** The clean-up block, textually the same in both ingress handlers:
    [try { if (fs.existsSync(p)) await fs.promises.unlink(p) } catch { warn }]. *)
Definition cleanup (p : path) : M unit :=
  try_catch
    (found <- existsSync p ;;
     if found then unlink p else ret tt)
    (fun cleanupError => ret tt).

(** ** Streaming ingress (WebSocket) *)

Definition handleTranslation (data : json) : M unit :=
  try_catch
    (let text := get_prop data (js "text") in
     let targetLanguage :=
       default_to (JStr (js "en")) (get_prop data (js "targetLanguage")) in
     let sourceLanguage :=
       default_to (JStr (js "auto")) (get_prop data (js "sourceLanguage")) in
     response <- axios_post_generate (PromptFromTo sourceLanguage targetLanguage text) ;;
     translation <- call_trim response ;;
     W <- ask ;;
     ws_send [ (js "type", Some (JStr (js "translation")));
               (js "originalText", text);
               (js "translatedText", Some (JStr translation));
               (js "sourceLanguage", Some sourceLanguage);
               (js "targetLanguage", Some targetLanguage);
               (js "timestamp", Some (JStr (toISOString W))) ])
    (fun error =>
       ws_send [ (js "type", Some (JStr (js "error")));
                 (js "message", Some (JStr (js "Translation failed: " ++ error))) ]).

Definition tempFilename_of (timestamp : Z) (uniqueId : jsstring) : jsstring :=
  js "temp_" ++ Number_toString timestamp ++ js "_" ++ uniqueId ++ js ".wav".

Definition audio_mp3Filename (timestamp : Z) (uniqueId : jsstring) : jsstring :=
  js "audio_" ++ Number_toString timestamp ++ js "_" ++ uniqueId ++ js ".mp3".

Definition handleAudioChunk (data : json) : M unit :=
  try_catch
    (let audioData := get_prop data (js "audioData") in
     let targetLanguage :=
       default_to (JStr (js "en")) (get_prop data (js "targetLanguage")) in
     let sessionId := get_prop data (js "sessionId") in
     (if truthy audioData then ret tt else throw (js "No audio data provided")) ;;
     W <- ask ;;
     let timestamp := Date_now W in
     let uniqueId := uuidv4 W in
     let tempFilename := tempFilename_of timestamp uniqueId in
     let mp3Filename := audio_mp3Filename timestamp uniqueId in
     tempAudioPath <- saveAudioChunk audioData tempFilename ;;
     let mp3Path := path_join AudioDir mp3Filename in
     convertToMp3 tempAudioPath mp3Path ;;
     transcriptionText <- transcribeAudio mp3Path ;;
     ws_send [ (js "type", Some (JStr (js "transcription")));
               (js "text", Some (JStr transcriptionText));
               (js "audioFile", Some (JStr mp3Filename));
               (js "timestamp", Some (JStr (toISOString W)));
               (js "sessionId", js_or sessionId (Some (JStr uniqueId))) ] ;;
     (if nonempty transcriptionText && nonempty (trim transcriptionText)
      then handleTranslation
             (JObj (mkobj [ (js "text", Some (JStr transcriptionText));
                            (js "targetLanguage", Some targetLanguage);
                            (js "sessionId", js_or sessionId (Some (JStr uniqueId))) ]))
      else ret tt) ;;
     cleanup tempAudioPath)
    (fun error =>
       ws_send [ (js "type", Some (JStr (js "error")));
                 (js "message", Some (JStr (js "Transcription failed: " ++ error))) ]).

(** One element of [models.map(model => ({name, size, modified_at}))]. *)
Definition model_summary (model : json) : M json :=
  match model with
  | JNull => W <- ask ;; throw (msg_TypeError W)
  | _ =>
      ret (JObj (mkobj [ (js "name", get_prop model (js "name"));
                         (js "size", get_prop model (js "size"));
                         (js "modified_at", get_prop model (js "modified_at")) ]))
  end.

Definition getAvailableModels : M unit :=
  try_catch
    (log_request GetTags ;;
     W <- ask ;;
     match axios_get_outcome W with
     | inl err => throw err
     | inr v =>
         match js_or v (Some (JArr [])) with
         | Some (JArr models) =>
             summaries <- mapM model_summary models ;;
             ws_send [ (js "type", Some (JStr (js "models")));
                       (js "models", Some (JArr summaries)) ]
         | _ => throw (msg_TypeError W)
         end
     end)
    (fun error =>
       ws_send [ (js "type", Some (JStr (js "error")));
                 (js "message", Some (JStr (js "Failed to fetch models: " ++ error))) ]).

Definition unknown_type_reply : list (jsstring * value) :=
  [ (js "type", Some (JStr (js "error")));
    (js "message", Some (JStr (js "Unknown message type"))) ].

(** [ws.on('message', ...)]. [parsed] is the outcome of [JSON.parse(message)]:
    the SyntaxError's message, or the value. The [switch] compares
    [data.type] with [===]. *)
Definition on_message (parsed : exn + json) : M unit :=
  try_catch
    (data <- match parsed with
             | inl err => throw err
             | inr d => ret d
             end ;;
     type <- match data with
             | JNull => W <- ask ;; throw (msg_TypeError W)
             | _ => ret (get_prop data (js "type"))
             end ;;
     match type with
     | Some (JStr t) =>
         if jsstring_eqb t (js "audio-chunk") then handleAudioChunk data
         else if jsstring_eqb t (js "translate") then handleTranslation data
         else if jsstring_eqb t (js "get-models") then getAvailableModels
         else ws_send unknown_type_reply
     | _ => ws_send unknown_type_reply
     end)
    (fun error =>
       ws_send [ (js "type", Some (JStr (js "error")));
                 (js "message", Some (JStr error)) ]).

(** ** One-shot ingress ([POST /transcribe]) *)

(** What multer leaves on the request: [req.file] (the staged upload, already
    written under the uploads directory) and the text field
    [req.body.targetLanguage]. *)
Record upload_file : Type := mkupload {
  uf_path : path;
  uf_originalname : jsstring
}.

Record upload_request : Type := mkrequest {
  req_file : option upload_file;
  req_targetLanguage : option jsstring
}.

Definition uploaded_mp3Filename (timestamp : Z) (uniqueId : jsstring) : jsstring :=
  js "uploaded_" ++ Number_toString timestamp ++ js "_" ++ uniqueId ++ js ".mp3".

Definition post_transcribe (req : upload_request) : M unit :=
  try_catch
    (match req_file req with
     | None =>
         res_json 400 [ (js "error", Some (JStr (js "No audio file provided"))) ]
     | Some file =>
         let targetLanguage :=
           match req_targetLanguage req with
           | None => js "en"
           | Some l => l
           end in
         let uploadedFilePath := uf_path file in
         W <- ask ;;
         let timestamp := Date_now W in
         let uniqueId := uuidv4 W in
         let mp3Filename := uploaded_mp3Filename timestamp uniqueId in
         let mp3Path := path_join AudioDir mp3Filename in
         try_finally
           (convertToMp3 uploadedFilePath mp3Path ;;
            transcriptionText <- transcribeAudio mp3Path ;;
            translationResult <-
              (if nonempty targetLanguage
                  && negb (jsstring_eqb targetLanguage (js "auto"))
                  && nonempty (trim transcriptionText)
               then
                 try_catch
                   (response <- axios_post_generate
                                  (PromptTo targetLanguage transcriptionText) ;;
                    translatedText <- call_trim response ;;
                    ret (JObj [ (js "translatedText", JStr translatedText);
                                (js "targetLanguage", JStr targetLanguage) ]))
                   (fun translationError => ret JNull)
               else ret JNull) ;;
            res_json 200 [ (js "transcription", Some (JStr transcriptionText));
                           (js "audioFile", Some (JStr mp3Filename));
                           (js "translation", Some translationResult);
                           (js "timestamp", Some (JStr (toISOString W)));
                           (js "originalFile", Some (JStr (uf_originalname file))) ])
           (cleanup uploadedFilePath)
     end)
    (fun error =>
       res_json 500 [ (js "error", Some (JStr (js "Transcription failed")));
                      (js "details", Some (JStr error)) ]).

(** ** Artifact retrieval *)

(** [GET /audio/:filename]. *)
Definition get_audio_file (filename : jsstring) : M unit :=
  try_catch
    (let filePath := path_join AudioDir filename in
     if negb (valid_audio_filename filename)
     then res_json 400 [ (js "error", Some (JStr (js "Invalid filename"))) ]
     else
       found <- existsSync filePath ;;
       if negb found
       then res_json 404 [ (js "error", Some (JStr (js "Audio file not found"))) ]
       else
         bytes <- createReadStream filePath ;;
         res_send (mkresponse 200
                     [ (js "Content-Type", js "audio/mpeg");
                       (js "Content-Disposition",
                        js "attachment; filename=" ++ [34] ++ filename ++ [34]) ]
                     (BStream bytes)))
    (fun error =>
       res_json 500 [ (js "error", Some (JStr (js "Failed to serve audio file"))) ]).

Definition listed (file : jsstring) : bool :=
  endsWith file (js ".mp3") || endsWith file (js ".wav").

Definition stat_entry (file : jsstring) : M entry :=
  let filePath := path_join AudioDir file in
  stats <- statSync filePath ;;
  ret (mkentry file (N.of_nat (length (f_bytes stats)))
               (f_birthtime stats) (f_mtime stats)).

Definition newest_first (a b : entry) : Z := (e_created b - e_created a)%Z.

(** [GET /audio]. *)
Definition get_audio_list : M unit :=
  try_catch
    (names <- readdirSync AudioDir ;;
     entries <- mapM stat_entry (List.filter listed names) ;;
     let files := Array_sort newest_first entries in
     res_send (mkresponse 200 [] (BFiles files)))
    (fun error =>
       res_json 500 [ (js "error", Some (JStr (js "Failed to list audio files"))) ]).

(** Running a handler from a state. *)
Definition run {A} (m : M A) (W : World) (s : State) : State := snd (m W s).

(** [String.prototype.includes], as a proposition. *)
Definition includes (s sub : jsstring) : Prop :=
  exists a b, s = a ++ sub ++ b.

(** Number of [.] units of a string. *)
Definition count_dots (s : jsstring) : nat :=
  length (List.filter (N.eqb (chr ".")) s).

(** ** Sample worlds and states *)

Definition sample_uuid : jsstring := js "123e4567-e89b-42d3-a456-426614174000".

(** A world where every collaborator answers: ffmpeg encodes three bytes and
    Ollama returns a completion. *)
Definition world_ok : World :=
  mkWorld 1700000000000 (js "2023-11-14T22:13:20.000Z") sample_uuid (1 # 2)
          (fun s => s) 1700000000001 None None
          (inr [73; 68; 51])
          (inr (Some (JStr (js " Hello. "))))
          (inr (Some (JArr [])))
          (js "ENOENT: no such file or directory")
          (js "Cannot read properties of undefined").

Definition with_ffmpeg (o : exn + list N) (W : World) : World :=
  mkWorld (Date_now W) (toISOString W) (uuidv4 W) (Math_random W)
          (Buffer_from_base64 W) (fs_clock W) (writeFile_error W)
          (unlink_error W) o (axios_post_outcome W) (axios_get_outcome W)
          (msg_ENOENT W) (msg_TypeError W).

Definition with_axios_post (o : exn + value) (W : World) : World :=
  mkWorld (Date_now W) (toISOString W) (uuidv4 W) (Math_random W)
          (Buffer_from_base64 W) (fs_clock W) (writeFile_error W)
          (unlink_error W) (ffmpeg_outcome W) o (axios_get_outcome W)
          (msg_ENOENT W) (msg_TypeError W).

Definition with_random (r : Q) (W : World) : World :=
  mkWorld (Date_now W) (toISOString W) (uuidv4 W) r
          (Buffer_from_base64 W) (fs_clock W) (writeFile_error W)
          (unlink_error W) (ffmpeg_outcome W) (axios_post_outcome W)
          (axios_get_outcome W) (msg_ENOENT W) (msg_TypeError W).

(** ffmpeg rejects the input. *)
Definition world_conversion_fails : World :=
  with_ffmpeg (inl (js "Invalid data found when processing input")) world_ok.

(** Ollama is unreachable. *)
Definition world_translation_fails : World :=
  with_axios_post (inl (js "connect ECONNREFUSED 127.0.0.1:11434")) world_ok.

Definition state_of (fs : FS) : State := mkState fs [] [] None [] [].

Definition empty_state : State := state_of (mkFS ∅ ∅).

(** A persistent directory holding one converted artifact. *)
Definition one_artifact_state : State :=
  state_of (mkFS {[ js "audio_1_a.mp3" := mkfile [73; 68; 51] 10 10 ]} ∅).

(** The three answers of the download endpoint. *)
Definition invalid_filename_response : response :=
  mkresponse 400 [] (BJson [ (js "error", JStr (js "Invalid filename")) ]).

Definition not_found_response : response :=
  mkresponse 404 [] (BJson [ (js "error", JStr (js "Audio file not found")) ]).

Definition download_response (filename : jsstring) (f : file) : response :=
  mkresponse 200
    [ (js "Content-Type", js "audio/mpeg");
      (js "Content-Disposition",
       js "attachment; filename=" ++ [34] ++ filename ++ [34]) ]
    (BStream (f_bytes f)).

(** The listing entry of a directory entry. *)
Definition entry_of (nf : list N * file) : entry :=
  mkentry nf.1 (N.of_nat (length (f_bytes nf.2))) (f_birthtime nf.2) (f_mtime nf.2).

(** [a] may stand before [b] in a newest-first listing. *)
Definition not_older (a b : entry) : Prop := (e_created b <= e_created a)%Z.

(** A persistent directory holding a converted artifact and a staged
    pre-conversion file. *)
Definition mixed_state : State :=
  state_of (mkFS {[ js "audio_1_a.mp3" := mkfile [73; 68; 51] 10 10;
                    js "temp_2_b.wav" := mkfile [82; 73; 70; 70] 20 20 ]} ∅).

(** The code units [0] to [9]. *)
Definition is_digit (c : N) : Prop := 48 <= c <= 57.

(** ** Notifications and filesystem effects, named

    The objects the handlers send and the filesystem updates they perform,
    as read off the handler bodies; the lemmas below prove that running the
    handlers produces them. *)

Definition error_notification (message : jsstring) : json :=
  JObj [ (js "type", JStr (js "error")); (js "message", JStr message) ].

Definition transcription_message (W : World) (data : json) (text : jsstring) : json :=
  JObj (mkobj [ (js "type", Some (JStr (js "transcription")));
                (js "text", Some (JStr text));
                (js "audioFile",
                 Some (JStr (audio_mp3Filename (Date_now W) (uuidv4 W))));
                (js "timestamp", Some (JStr (toISOString W)));
                (js "sessionId",
                 js_or (get_prop data (js "sessionId")) (Some (JStr (uuidv4 W)))) ]).

Definition translation_message (W : World) (data : json) (completion : jsstring) : json :=
  JObj (mkobj [ (js "type", Some (JStr (js "translation")));
                (js "originalText", get_prop data (js "text"));
                (js "translatedText", Some (JStr (trim completion)));
                (js "sourceLanguage",
                 Some (default_to (JStr (js "auto"))
                                  (get_prop data (js "sourceLanguage"))));
                (js "targetLanguage",
                 Some (default_to (JStr (js "en"))
                                  (get_prop data (js "targetLanguage"))));
                (js "timestamp", Some (JStr (toISOString W))) ]).

(** The one notification [handleTranslation] sends, by outcome of the call. *)
Definition translation_notification (W : World) (data : json) : json :=
  match axios_post_outcome W with
  | inl err => error_notification (js "Translation failed: " ++ err)
  | inr (Some (JStr completion)) => translation_message W data completion
  | inr _ => error_notification (js "Translation failed: " ++ msg_TypeError W)
  end.

Definition translation_request (data : json) : request :=
  PostGenerate
    (PromptFromTo (default_to (JStr (js "auto")) (get_prop data (js "sourceLanguage")))
                  (default_to (JStr (js "en")) (get_prop data (js "targetLanguage")))
                  (get_prop data (js "text"))).

(** The object [handleAudioChunk] hands to [handleTranslation]. *)
Definition auto_translate_data (W : World) (data : json) (text : jsstring) : json :=
  JObj (mkobj [ (js "text", Some (JStr text));
                (js "targetLanguage",
                 Some (default_to (JStr (js "en"))
                                  (get_prop data (js "targetLanguage"))));
                (js "sessionId",
                 js_or (get_prop data (js "sessionId")) (Some (JStr (uuidv4 W)))) ]).

Definition temp_path (W : World) : path :=
  path_join AudioDir (tempFilename_of (Date_now W) (uuidv4 W)).

Definition audio_mp3_path (W : World) : path :=
  path_join AudioDir (audio_mp3Filename (Date_now W) (uuidv4 W)).

Definition uploaded_mp3_path (W : World) : path :=
  path_join AudioDir (uploaded_mp3Filename (Date_now W) (uuidv4 W)).

(** The filesystem after the streaming payload was staged. *)
Definition staged_fs (W : World) (payload : jsstring) (fs : FS) : FS :=
  put_file (temp_path W) (Buffer_from_base64 W (strip_data_url payload))
           (fs_clock W) fs.

(** Effect of the clean-up block. *)
Definition cleanup_fs (W : World) (p : path) (fs : FS) : FS :=
  match fs_lookup fs p, unlink_error W with
  | Some _, None => remove_file p fs
  | _, _ => fs
  end.

Definition cleanup_ops (p : path) (fs : FS) : list fs_op :=
  match fs_lookup fs p with
  | Some _ => [OpExists p; OpUnlink p]
  | None => [OpExists p]
  end.

(** The transcript of the mock backend for an artifact of [bytes]. *)
Definition transcript_of (W : World) (bytes : list N) : jsstring :=
  mock_text (randomIndex_of (Math_random W))
            (fileSizeKB_of (N.of_nat (length bytes))).

(** The upload handler's target language: the field, or ['en'] when the field
    is absent. *)
Definition effective_targetLanguage (req : upload_request) : jsstring :=
  match req_targetLanguage req with
  | None => js "en"
  | Some l => l
  end.

(** The condition guarding the translation step of the upload handler. *)
Definition translation_gate (targetLanguage transcriptionText : jsstring) : bool :=
  nonempty targetLanguage
  && negb (jsstring_eqb targetLanguage (js "auto"))
  && nonempty (trim transcriptionText).

(** The [translation] field of the upload response. *)
Definition upload_translation (W : World) (targetLanguage text : jsstring) : json :=
  if translation_gate targetLanguage text then
    match axios_post_outcome W with
    | inr (Some (JStr completion)) =>
        JObj [ (js "translatedText", JStr (trim completion));
               (js "targetLanguage", JStr targetLanguage) ]
    | _ => JNull
    end
  else JNull.

Definition upload_requests (targetLanguage text : jsstring) : list request :=
  if translation_gate targetLanguage text
  then [PostGenerate (PromptTo targetLanguage text)]
  else [].

Definition upload_success_response (W : World) (file : upload_file)
           (text : jsstring) (translation : json) : response :=
  mkresponse 200 []
    (BJson [ (js "transcription", JStr text);
             (js "audioFile", JStr (uploaded_mp3Filename (Date_now W) (uuidv4 W)));
             (js "translation", translation);
             (js "timestamp", JStr (toISOString W));
             (js "originalFile", JStr (uf_originalname file)) ]).

Definition upload_failure_response (details : jsstring) : response :=
  mkresponse 500 []
    (BJson [ (js "error", JStr (js "Transcription failed"));
             (js "details", JStr details) ]).

(** A file of the persistent directory that both retrieval endpoints hand
    out: the download endpoint serves it and the listing shows it. *)
Definition exposed (name : jsstring) (bytes : list N) (s : State) : Prop :=
  exists f,
    audio (st_fs s) !! name = Some f
    /\ f_bytes f = bytes
    /\ (forall W, st_res (run (get_audio_file name) W s)
                  = Some (download_response name f))
    /\ (forall W, exists files,
           st_res (run get_audio_list W s) = Some (mkresponse 200 [] (BFiles files))
           /\ entry_of (name, f) ∈ files).

(** An upload as multer stages it, and the state it leaves. *)
Definition sample_upload : upload_file :=
  mkupload (path_join UploadsDir (js "1700000000000-123456789.wav")) (js "clip.wav").

Definition uploaded_state : State :=
  state_of (mkFS ∅ {[ js "1700000000000-123456789.wav" := mkfile [82; 73; 70; 70] 5 5 ]}).

(** A streaming message with a session id. *)
Definition sample_chunk : json :=
  JObj [ (js "type", JStr (js "audio-chunk"));
         (js "audioData", JStr (js "data:audio/wav;base64,UklGRg=="));
         (js "sessionId", JStr (js "s1")) ].

(** ** Further endpoints of server.js *)

(** [/^data:audio\/[^;]+;base64,/], the header [saveAudioChunk] removes. *)
Definition data_url_re : regex :=
  RCat (RLit (js "data:audio/"))
       (RCat (RPlus (RClass (fun c => negb (c =? chr ";"))))
             (RLit (js ";base64,"))).


(** [GET /models]. *)
Definition get_models : M unit :=
  try_catch
    (log_request GetTags ;;
     W <- ask ;;
     match axios_get_outcome W with
     | inl err => throw err
     | inr v =>
         match js_or v (Some (JArr [])) with
         | Some (JArr models) =>
             summaries <- mapM model_summary models ;;
             res_json 200 [ (js "models", Some (JArr summaries)) ]
         | _ => throw (msg_TypeError W)
         end
     end)
    (fun error =>
       res_json 500 [ (js "error",
                       Some (JStr (js "Failed to fetch models: " ++ error))) ]).

(** What [model => ({name, size, modified_at})] returns on a non-null
    element. *)
Definition summary_of (model : json) : json :=
  JObj (mkobj [ (js "name", get_prop model (js "name"));
                (js "size", get_prop model (js "size"));
                (js "modified_at", get_prop model (js "modified_at")) ]).

Definition is_summary_key (k : jsstring) : bool :=
  jsstring_eqb k (js "name") || jsstring_eqb k (js "size")
  || jsstring_eqb k (js "modified_at").

(** A world whose Ollama lists one model. *)
Definition world_one_model : World :=
  mkWorld 1700000000000 (js "2023-11-14T22:13:20.000Z") sample_uuid (1 # 2)
          (fun s => s) 1700000000001 None None
          (inr [73; 68; 51])
          (inr (Some (JStr (js " Hello. "))))
          (inr (Some (JArr [ JObj [ (js "name", JStr (js "llama3.2"));
                                    (js "digest", JStr (js "a80c4f17acd5"));
                                    (js "size", JNum (inject_Z 2019393189)) ] ])))
          (js "ENOENT: no such file or directory")
          (js "Cannot read properties of undefined").

#[global] Instance Dir_eq_dec : EqDecision Dir.
Proof. solve_decision. Defined.

#[global] Instance path_eq_dec : EqDecision path.
Proof. solve_decision. Defined.


(** The status [POST /transcribe] answers with, by what it was given. *)
Definition upload_status (W : World) (req : upload_request) : N :=
  match req_file req, ffmpeg_outcome W with
  | None, _ => 400
  | Some _, inl _ => 500
  | Some _, inr _ => 200
  end.

Definition is_unlink (o : fs_op) : bool :=
  match o with
  | OpUnlink _ => true
  | _ => false
  end.

(** ** The browser client (WebSocketService, TranscriptorComponent,
    TranslationService) *)

(** [sendAudioChunk(audioData, targetLanguage = 'en')]: the bytes of the
    recording travel as an array of numbers under the key [data]. The object
    is sent as [JSON.stringify] of it, which the server's [JSON.parse] reads
    back. *)
Definition sendAudioChunk_message (audioData : list N)
           (targetLanguage : option jsstring) : json :=
  JObj [ (js "type", JStr (js "audio-chunk"));
         (js "data", JArr (map (fun b => JNum (inject_Z (Z.of_N b))) audioData));
         (js "targetLanguage",
          JStr (match targetLanguage with Some l => l | None => js "en" end)) ].

(** [requestTranslation(text, targetLanguage = 'en', sourceLanguage = 'auto')]. *)
Definition requestTranslation_message (text : jsstring)
           (targetLanguage sourceLanguage : option jsstring) : json :=
  JObj [ (js "type", JStr (js "translate"));
         (js "text", JStr text);
         (js "targetLanguage",
          JStr (match targetLanguage with Some l => l | None => js "en" end));
         (js "sourceLanguage",
          JStr (match sourceLanguage with Some l => l | None => js "auto" end)) ].

(** A snack bar shown to the user: the text and whether it is an error.
    The text of an [error] notification whose [message] is not a string is
    kept symbolic. *)
Inductive snack : Type :=
| Snack (message : jsstring) (is_error : bool)
| SnackErrorOf (message : option json).

(** The client's histories ([TranslationService]'s two subjects) and the
    snack bars shown so far, oldest first. *)
Record ClientState : Type := mkClient {
  transcriptions : list json;
  translations : list json;
  snackbars : list snack
}.

(** [TranslationService.addTranscription] / [addTranslation]: append. *)
Definition addTranscription (t : json) (c : ClientState) : ClientState :=
  mkClient (transcriptions c ++ [t]) (translations c) (snackbars c).

Definition addTranslation (t : json) (c : ClientState) : ClientState :=
  mkClient (transcriptions c) (translations c ++ [t]) (snackbars c).

Definition showMessage (k : snack) (c : ClientState) : ClientState :=
  mkClient (transcriptions c) (translations c) (snackbars c ++ [k]).

(** [TranscriptorComponent.handleWebSocketMessage]. [now] is
    [new Date().toISOString()] on the client. Reading [message.type] of
    [null] throws ([None]). *)
Definition handleWebSocketMessage (now : jsstring) (message : json)
           (c : ClientState) : option ClientState :=
  match message with
  | JNull => None
  | _ =>
      match get_prop message (js "type") with
      | Some (JStr t) =>
          if jsstring_eqb t (js "connected")
          then Some (showMessage (Snack (js "WebSocket conectado") false) c)
          else if jsstring_eqb t (js "transcription")
          then
            if truthy (get_prop message (js "text"))
            then Some (addTranscription
                         (JObj (mkobj
                            [ (js "text", get_prop message (js "text"));
                              (js "timestamp",
                               js_or (get_prop message (js "timestamp"))
                                     (Some (JStr now))) ])) c)
            else Some c
          else if jsstring_eqb t (js "translation")
          then
            if truthy (get_prop message (js "originalText"))
               && truthy (get_prop message (js "translatedText"))
            then Some (addTranslation
                         (JObj (mkobj
                            [ (js "originalText", get_prop message (js "originalText"));
                              (js "translatedText",
                               get_prop message (js "translatedText"));
                              (js "sourceLanguage",
                               js_or (get_prop message (js "sourceLanguage"))
                                     (Some (JStr (js "auto"))));
                              (js "targetLanguage",
                               js_or (get_prop message (js "targetLanguage"))
                                     (Some (JStr (js "en"))));
                              (js "timestamp",
                               js_or (get_prop message (js "timestamp"))
                                     (Some (JStr now))) ])) c)
            else Some c
          else if jsstring_eqb t (js "error")
          then
            Some (showMessage
                    (match get_prop message (js "message") with
                     | Some (JStr m) => Snack (js "Error: " ++ m) true
                     | other => SnackErrorOf other
                     end) c)
          else Some c
      | _ => Some c
      end
  end.

(** The client handling the server's messages in the order they were sent. *)
Fixpoint receive_all (now : jsstring) (messages : list json) (c : ClientState)
  : option ClientState :=
  match messages with
  | [] => Some c
  | m :: rest =>
      match handleWebSocketMessage now m c with
      | Some c' => receive_all now rest c'
      | None => None
      end
  end.

(** What the server sent on the connection while handling one message. *)
Definition replies (W : World) (s : State) (message : json) : list json :=
  drop (length (st_sent s)) (st_sent (run (on_message (inr message)) W s)).

Definition empty_client : ClientState := mkClient [] [] [].

(** ** Time displays of the client components *)

(** [String.prototype.padStart(2, '0')]. *)
Definition padStart2 (s : jsstring) : jsstring :=
  repeat (chr "0") (2 - length s) ++ s.

(** [AudioRecorderComponent.getRecordingTimeFormatted]; [recordingTime] is
    the counter of elapsed seconds, a natural number. *)
Definition getRecordingTimeFormatted (recordingTime : N) : jsstring :=
  let minutes := recordingTime / 60 in
  let seconds := recordingTime mod 60 in
  padStart2 (Number_toString (Z.of_N minutes)) ++ js ":"
    ++ padStart2 (Number_toString (Z.of_N seconds)).

(** Reading a clock display back: the digits before and after the colon. *)
Fixpoint units_uint (s : jsstring) : Decimal.uint :=
  match s with
  | [] => Decimal.Nil
  | c :: s' =>
      let d := units_uint s' in
      if c =? 48 then Decimal.D0 d else if c =? 49 then Decimal.D1 d
      else if c =? 50 then Decimal.D2 d else if c =? 51 then Decimal.D3 d
      else if c =? 52 then Decimal.D4 d else if c =? 53 then Decimal.D5 d
      else if c =? 54 then Decimal.D6 d else if c =? 55 then Decimal.D7 d
      else if c =? 56 then Decimal.D8 d else Decimal.D9 d
  end.

Fixpoint take_until (c : N) (s : jsstring) : jsstring :=
  match s with
  | [] => []
  | d :: s' => if d =? c then [] else d :: take_until c s'
  end.

Definition read_clock (display : jsstring) : N :=
  60 * N.of_uint (units_uint (take_until (chr ":") display))
  + N.of_uint (units_uint (tl (skip_not (chr ":") display))).

(** [plural] suffix of the relative-time texts: [${n > 1 ? 's' : ''}]. *)
Definition plural_s (n : Z) : jsstring := if (1 <? n)%Z then js "s" else [].

(** [TranslationDisplayComponent.getRelativeTime], on the two instants in
    milliseconds ([now.getTime()] and the parsed [timestamp], a valid date);
    the quotients are taken exactly. *)
Definition getRelativeTime (now translationTime : Z) : jsstring :=
  let diffInSeconds := ((now - translationTime) / 1000)%Z in
  if (diffInSeconds <? 60)%Z then js "hace unos segundos"
  else if (diffInSeconds <? 3600)%Z then
    let minutes := (diffInSeconds / 60)%Z in
    js "hace " ++ Number_toString minutes ++ js " minuto" ++ plural_s minutes
  else if (diffInSeconds <? 86400)%Z then
    let hours := (diffInSeconds / 3600)%Z in
    js "hace " ++ Number_toString hours ++ js " hora" ++ plural_s hours
  else
    let days := (diffInSeconds / 86400)%Z in
    js "hace " ++ Number_toString days ++ js " día" ++ plural_s days.

(** * Properties *)

(** ** The matcher decides the language of a pattern *)

Lemma lang_nil_nullable r s : lang r s -> s = [] -> nullable r = true.
Proof.
  induction 1; intros Hs; simpl; try reflexivity; try discriminate.
  - apply app_eq_nil in Hs as [-> ->].
    rewrite IHlang1, IHlang2; reflexivity.
  - rewrite (IHlang Hs); reflexivity.
  - rewrite (IHlang Hs), orb_true_r; reflexivity.
Qed.

Lemma nullable_lang_nil r : nullable r = true -> lang r [].
Proof.
  induction r; simpl; intros Hn; try discriminate.
  - constructor.
  - apply andb_true_iff in Hn as [H1 H2].
    change (@nil N) with (@nil N ++ []). constructor; auto.
  - apply orb_true_iff in Hn as [H1 | H2].
    + apply LAltL; auto.
    + apply LAltR; auto.
  - constructor.
Qed.

Lemma deriv_sound c r : forall s, lang (deriv c r) s -> lang r (c :: s).
Proof.
  induction r; simpl; intros s Hl.
  - inversion Hl.
  - inversion Hl.
  - destruct (p c) eqn:Hp; inversion Hl; subst. constructor; exact Hp.
  - destruct (nullable r1) eqn:Hn.
    + inversion Hl; subst.
      * match goal with H : lang (RCat _ _) _ |- _ => inversion H; subst end.
        change (c :: s1 ++ s2) with ((c :: s1) ++ s2). constructor; auto.
      * change (c :: s) with ([] ++ c :: s).
        constructor; [apply nullable_lang_nil; exact Hn | auto].
    + inversion Hl; subst.
      change (c :: s1 ++ s2) with ((c :: s1) ++ s2). constructor; auto.
  - inversion Hl; subst; [apply LAltL | apply LAltR]; auto.
  - inversion Hl; subst.
    change (c :: s1 ++ s2) with ((c :: s1) ++ s2). constructor; auto.
Qed.

Lemma deriv_complete c r s' :
  lang r s' -> forall t, s' = c :: t -> lang (deriv c r) t.
Proof.
  induction 1 as [|p d Hp|r1 r2 s1 s2 H1 IH1 H2 IH2|r1 r2 s H IH|r1 r2 s H IH
                 |r|r s1 s2 H1 IH1 H2 IH2]; intros t Ht; simpl.
  - discriminate.
  - injection Ht as -> <-. rewrite Hp. constructor.
  - destruct s1 as [|d s1].
    + simpl in Ht. rewrite (lang_nil_nullable _ _ H1 eq_refl).
      apply LAltR. apply IH2; exact Ht.
    + injection Ht as -> <-.
      assert (Hl : lang (RCat (deriv c r1) r2) (s1 ++ s2))
        by (constructor; [apply IH1; reflexivity | assumption]).
      destruct (nullable r1); [apply LAltL |]; exact Hl.
  - apply LAltL; auto.
  - apply LAltR; auto.
  - discriminate.
  - destruct s1 as [|d s1].
    + simpl in Ht. apply (IH2 t Ht).
    + injection Ht as -> <-.
      constructor; [apply IH1; reflexivity | assumption].
Qed.

Lemma rmatch_lang r s : rmatch r s = true <-> lang r s.
Proof.
  revert r; induction s as [|c s IH]; intros r; simpl.
  - split; [apply nullable_lang_nil | intros H; exact (lang_nil_nullable _ _ H eq_refl)].
  - rewrite IH. split; [apply deriv_sound | intros H; exact (deriv_complete _ _ _ H _ eq_refl)].
Qed.

Lemma lang_lit l s : lang (RLit l) s -> s = l.
Proof.
  revert s; induction l as [|c l IH]; simpl; intros s H.
  - inversion H; reflexivity.
  - inversion H; subst.
    match goal with H1 : lang (RClass _) _ |- _ => inversion H1; subst end.
    match goal with H1 : (_ =? _) = true |- _ => apply N.eqb_eq in H1; subst end.
    simpl. f_equal. apply IH; assumption.
Qed.

Lemma lit_lang l : lang (RLit l) l.
Proof.
  induction l as [|c l IH]; simpl.
  - constructor.
  - change (c :: l) with ([c] ++ l). constructor; [|exact IH].
    constructor. apply N.eqb_refl.
Qed.

Lemma lang_star_class p s' r :
  lang r s' -> r = RStar (RClass p) -> Forall (fun c => p c = true) s'.
Proof.
  induction 1; intros Hr; try discriminate.
  - constructor.
  - injection Hr as ->. inversion H; subst. simpl.
    constructor; [assumption | apply IHlang2; reflexivity].
Qed.

Lemma star_class_lang p s :
  Forall (fun c => p c = true) s -> lang (RStar (RClass p)) s.
Proof.
  induction 1 as [|c s Hc _ IH].
  - constructor.
  - change (c :: s) with ([c] ++ s). constructor; [constructor; exact Hc | exact IH].
Qed.

(** The shape of every accepted filename: a non-empty stem over
    [[a-zA-Z0-9_-]], a dot, and one of the two extensions. *)
Lemma valid_audio_filename_shape filename :
  valid_audio_filename filename = true <->
  exists stem ext,
    filename = stem ++ js "." ++ ext /\ stem <> [] /\
    Forall (fun c => filename_char c = true) stem /\
    (ext = js "mp3" \/ ext = js "wav").
Proof.
  unfold valid_audio_filename. rewrite rmatch_lang. split.
  - intros H. unfold audio_filename_re, RPlus in H.
    inversion H as [| |r1 r2 stem rest Hstem Hrest| | | |]; subst.
    inversion Hstem as [| |r1 r2 hd tl Hhd Htl| | | |]; subst.
    inversion Hrest as [| |r1 r2 dot ext Hdot Hext| | | |]; subst.
    apply (lang_lit (js ".")) in Hdot; subst dot.
    inversion Hhd; subst.
    exists ([c] ++ tl), ext. repeat split.
    + discriminate.
    + constructor; [assumption | eapply lang_star_class; eauto].
    + inversion Hext as [| | |r1 r2 s Hm|r1 r2 s Hw| |]; subst.
      * left. exact (lang_lit (js "mp3") _ Hm).
      * right. exact (lang_lit (js "wav") _ Hw).
  - intros (stem & ext & -> & Hne & Hall & Hext).
    unfold audio_filename_re, RPlus.
    destruct stem as [|c stem]; [congruence|].
    inversion Hall; subst.
    constructor.
    + change (c :: stem) with ([c] ++ stem).
      constructor; [constructor; assumption | apply star_class_lang; assumption].
    + constructor; [apply lit_lang |].
      destruct Hext as [-> | ->]; [apply LAltL | apply LAltR]; apply lit_lang.
Qed.

Lemma valid_audio_filename_chars filename c :
  valid_audio_filename filename = true -> In c filename ->
  filename_char c = true \/ c = chr "." \/ In c (js "mp3wav").
Proof.
  intros Hv Hin. apply valid_audio_filename_shape in Hv
    as (stem & ext & -> & _ & Hall & Hext).
  rewrite !in_app_iff in Hin. destruct Hin as [Hin | [Hin | Hin]].
  - left. rewrite Forall_forall in Hall. apply Hall. apply list_elem_of_In; exact Hin.
  - right; left. destruct Hin as [<- | []]. reflexivity.
  - right; right. destruct Hext as [-> | ->]; vm_compute in Hin |- *; tauto.
Qed.

Lemma count_dots_app a b : count_dots (a ++ b) = (count_dots a + count_dots b)%nat.
Proof. unfold count_dots. rewrite List.filter_app, length_app. reflexivity. Qed.

Lemma count_dots_stem stem :
  Forall (fun c => filename_char c = true) stem -> count_dots stem = 0%nat.
Proof.
  induction 1 as [|c stem Hc _ IH]; [reflexivity|].
  unfold count_dots in *. cbn [List.filter].
  destruct (chr "." =? c) eqn:E; [| exact IH].
  apply N.eqb_eq in E; subst c. discriminate Hc.
Qed.

Lemma valid_audio_filename_one_dot filename :
  valid_audio_filename filename = true -> count_dots filename = 1%nat.
Proof.
  intros Hv. apply valid_audio_filename_shape in Hv
    as (stem & ext & -> & _ & Hall & Hext).
  rewrite !count_dots_app, (count_dots_stem _ Hall).
  destruct Hext as [-> | ->]; reflexivity.
Qed.

(** Strings with a dot segment, a separator or a NUL are not accepted. *)
Lemma traversal_rejected filename :
  includes filename (js "..") \/ includes filename (js "/")
  \/ includes filename [0] ->
  valid_audio_filename filename = false.
Proof.
  intros H. destruct (valid_audio_filename filename) eqn:Hv; [exfalso | reflexivity].
  destruct H as [(a & b & E) | [(a & b & E) | (a & b & E)]].
  - apply valid_audio_filename_one_dot in Hv. rewrite E in Hv.
    rewrite !count_dots_app in Hv. change (count_dots (js "..")) with 2%nat in Hv. lia.
  - destruct (valid_audio_filename_chars filename (chr "/") Hv) as [Hc | [Hc | Hc]].
    + rewrite E, !in_app_iff. right; left; left; reflexivity.
    + discriminate Hc.
    + discriminate Hc.
    + vm_compute in Hc. intuition discriminate.
  - destruct (valid_audio_filename_chars filename 0 Hv) as [Hc | [Hc | Hc]].
    + rewrite E, !in_app_iff. right; left; left; reflexivity.
    + discriminate Hc.
    + discriminate Hc.
    + vm_compute in Hc. intuition discriminate.
Qed.

(** ** Download endpoint *)

(** Symbolic execution of handler code: unfold the monad and the effect
    primitives, then reduce the record projections that became redexes. *)
Ltac munfold :=
  cbv [run bind ret throw try_catch try_finally ask get modify log_op ws_send
       res_send res_json setTimeout_await log_request existsSync statSync
       writeFile unlink readdirSync createReadStream with_fs].

Ltac mproj :=
  cbn [st_fs st_ops st_sent st_res st_requests st_timers fst snd
       p_dir p_name audio uploads negb].

Ltac mstep := munfold; mproj.

Ltac fs_unfold :=
  cbv [fs_lookup dir_of set_dir put_file remove_file]; mproj.

Lemma get_audio_file_invalid W s filename :
  valid_audio_filename filename = false ->
  run (get_audio_file filename) W s
  = mkState (st_fs s) (st_ops s) (st_sent s) (Some invalid_filename_response)
            (st_requests s) (st_timers s).
Proof.
  intros Hv. unfold get_audio_file. mstep. rewrite Hv. reflexivity.
Qed.

Lemma get_audio_file_valid W s filename :
  valid_audio_filename filename = true ->
  st_res (run (get_audio_file filename) W s)
  = Some (match audio (st_fs s) !! filename with
          | Some f => download_response filename f
          | None => not_found_response
          end).
Proof.
  intros Hv. unfold get_audio_file. mstep. rewrite Hv. fs_unfold.
  destruct (audio (st_fs s) !! filename) as [f|] eqn:E; mproj; rewrite ?E;
    reflexivity.
Qed.

(** C1. A filename that does not match [^[A-Za-z0-9_-]+\.(mp3|wav)$] is
    answered 400 "Invalid filename" with no filesystem access at all (the
    trace of filesystem operations and the filesystem are unchanged); a
    filename containing "..", "/" or a NUL never matches; a matching name that
    exists in the persistent directory is served (200, the file's bytes), and
    a matching name with no file is answered 404. The matcher accepts exactly
    the strings made of a non-empty stem over [[a-zA-Z0-9_-]], a dot and
    [mp3] or [wav]. *)
Theorem download_filename_validation (W : World) (s : State) (filename : jsstring) :
  (valid_audio_filename filename = false ->
     st_res (run (get_audio_file filename) W s) = Some invalid_filename_response
     /\ st_ops (run (get_audio_file filename) W s) = st_ops s
     /\ st_fs (run (get_audio_file filename) W s) = st_fs s)
  /\ (includes filename (js "..") \/ includes filename (js "/")
      \/ includes filename [0] ->
      valid_audio_filename filename = false)
  /\ (valid_audio_filename filename = true ->
      forall f, audio (st_fs s) !! filename = Some f ->
      st_res (run (get_audio_file filename) W s)
      = Some (download_response filename f))
  /\ (valid_audio_filename filename = true ->
      audio (st_fs s) !! filename = None ->
      st_res (run (get_audio_file filename) W s) = Some not_found_response)
  /\ (valid_audio_filename filename = true <->
      exists stem ext,
        filename = stem ++ js "." ++ ext /\ stem <> [] /\
        Forall (fun c => filename_char c = true) stem /\
        (ext = js "mp3" \/ ext = js "wav")).
Proof.
  split; [|split; [|split; [|split]]].
  - intros Hv. rewrite get_audio_file_invalid by assumption.
    repeat split; reflexivity.
  - apply traversal_rejected.
  - intros Hv f Hf. rewrite get_audio_file_valid, Hf by assumption. reflexivity.
  - intros Hv Hf. rewrite get_audio_file_valid, Hf by assumption. reflexivity.
  - apply valid_audio_filename_shape.
Qed.

Lemma download_filename_validation_witness :
  (st_res (run (get_audio_file (js "../server.js")) world_ok one_artifact_state)
   = Some invalid_filename_response
   /\ st_ops (run (get_audio_file (js "../server.js")) world_ok one_artifact_state) = [])
  /\ valid_audio_filename (js "a/b.mp3") = false
  /\ st_res (run (get_audio_file (js "audio_1_a.mp3")) world_ok one_artifact_state)
     = Some (download_response (js "audio_1_a.mp3") (mkfile [73; 68; 51] 10 10))
  /\ st_res (run (get_audio_file (js "audio_2_b.mp3")) world_ok one_artifact_state)
     = Some not_found_response.
Proof.
  split; [| split; [| split]].
  - destruct (proj1 (download_filename_validation world_ok one_artifact_state
                       (js "../server.js")) eq_refl) as (H1 & H2 & _).
    split; [exact H1 | exact H2].
  - apply (proj1 (proj2 (download_filename_validation world_ok one_artifact_state
                           (js "a/b.mp3")))).
    right; left. exists (js "a"), (js "b.mp3"). reflexivity.
  - apply (proj1 (proj2 (proj2 (download_filename_validation world_ok
                                  one_artifact_state (js "audio_1_a.mp3"))))).
    + reflexivity.
    + vm_compute. reflexivity.
  - apply (proj1 (proj2 (proj2 (proj2 (download_filename_validation world_ok
                                  one_artifact_state (js "audio_2_b.mp3")))))).
    + reflexivity.
    + vm_compute. reflexivity.
Defined.

(** ** Listing endpoint *)

Section SortFacts.
Context {A : Type} (cmp : A -> A -> Z).
Hypothesis cmp_flip : forall a b, (0 < cmp a b -> cmp b a <= 0)%Z.

Let before (a b : A) : Prop := (cmp a b <= 0)%Z.

Lemma sort_insert_perm x l : sort_insert cmp x l ≡ₚ x :: l.
Proof.
  induction l as [|y l IH]; simpl; [reflexivity|].
  destruct (0 <? cmp x y)%Z; [|reflexivity].
  rewrite IH. apply Permutation_swap.
Qed.

Lemma Array_sort_perm l : Array_sort cmp l ≡ₚ l.
Proof.
  induction l as [|x l IH]; simpl; [reflexivity|].
  rewrite sort_insert_perm, IH. reflexivity.
Qed.

Lemma sort_insert_hd x y l :
  before y x -> HdRel before y l -> HdRel before y (sort_insert cmp x l).
Proof.
  intros Hyx Hl. destruct l as [|z l]; simpl; [constructor; exact Hyx|].
  destruct (0 <? cmp x z)%Z; constructor; [|exact Hyx].
  inversion Hl; assumption.
Qed.

Lemma sort_insert_sorted x l :
  Sorted before l -> Sorted before (sort_insert cmp x l).
Proof.
  induction 1 as [|y l Hs IH Hhd]; simpl; [repeat constructor|].
  destruct (0 <? cmp x y)%Z eqn:E.
  - apply Z.ltb_lt in E. constructor; [exact IH|].
    apply sort_insert_hd; [apply cmp_flip; exact E | exact Hhd].
  - apply Z.ltb_ge in E. constructor; [constructor; assumption|].
    constructor; exact E.
Qed.

Lemma Array_sort_sorted l : Sorted before (Array_sort cmp l).
Proof.
  induction l as [|x l IH]; simpl; [constructor|].
  apply sort_insert_sorted; exact IH.
Qed.
End SortFacts.

Lemma Sorted_weaken {A} (R R' : A -> A -> Prop) l :
  (forall a b, R a b -> R' a b) -> Sorted R l -> Sorted R' l.
Proof.
  intros HR. induction 1 as [|x l Hs IH Hhd]; constructor; [exact IH|].
  destruct Hhd; constructor; auto.
Qed.

Lemma newest_first_sorted (l : list entry) :
  StronglySorted not_older (Array_sort newest_first l).
Proof.
  apply Sorted_StronglySorted.
  - intros a b c Hab Hbc. unfold not_older in *. lia.
  - eapply Sorted_weaken; [| apply (Array_sort_sorted newest_first)].
    + intros a b. unfold newest_first, not_older. lia.
    + intros a b. unfold newest_first. lia.
Qed.

Lemma filter_listed_fst (l : list (list N * file)) :
  List.filter listed (map fst l) = map fst (List.filter (fun nf => listed nf.1) l).
Proof.
  induction l as [|[n f] l IH]; simpl; [reflexivity|].
  destruct (listed n); simpl; rewrite IH; reflexivity.
Qed.

Lemma mapM_stat_entry W (l : list (list N * file)) : forall s,
  (forall nf, nf ∈ l -> audio (st_fs s) !! nf.1 = Some nf.2) ->
  mapM stat_entry (map fst l) W s
  = (inr (map entry_of l),
     mkState (st_fs s)
             (st_ops s ++ map (fun nf => OpStat (path_join AudioDir nf.1)) l)
             (st_sent s) (st_res s) (st_requests s) (st_timers s)).
Proof.
  induction l as [|[n f] l IH]; intros s Hl.
  - destruct s; simpl. rewrite app_nil_r. reflexivity.
  - cbn [map mapM fst]. unfold stat_entry at 1. mstep. fs_unfold.
    assert (Hn : audio (st_fs s) !! n = Some f) by (apply (Hl (n, f)); left).
    rewrite Hn.
    rewrite IH.
    + mproj. cbn [map fst]. rewrite <- app_assoc. reflexivity.
    + intros nf Hnf. mproj. apply Hl. right. exact Hnf.
Qed.

Lemma get_audio_list_run W s :
  st_res (run get_audio_list W s)
  = Some (mkresponse 200 []
            (BFiles (Array_sort newest_first
                       (map entry_of
                            (List.filter (fun nf => listed nf.1)
                                         (map_to_list (audio (st_fs s)))))))).
Proof.
  unfold get_audio_list. mstep. fs_unfold. rewrite filter_listed_fst.
  rewrite mapM_stat_entry.
  - reflexivity.
  - intros [n f] Hin. mproj. cbn [fst snd].
    apply list_elem_of_In, List.filter_In in Hin. destruct Hin as [Hin _].
    apply elem_of_map_to_list, list_elem_of_In. exact Hin.
Qed.

(** C7 (as amended). The listing answers 200 with exactly the entries of the
    persistent directory whose name ends in [.mp3] or in [.wav]; each listed
    element carries the entry's filename, byte size, birth time and
    modification time; the sequence is ordered newest-first by creation
    time. *)
Theorem listing_newest_first (W : World) (s : State) :
  exists files,
    st_res (run get_audio_list W s) = Some (mkresponse 200 [] (BFiles files))
    /\ files ≡ₚ map entry_of
                  (List.filter (fun nf => listed nf.1)
                               (map_to_list (audio (st_fs s))))
    /\ (forall e, e ∈ files <->
          exists f, audio (st_fs s) !! e_filename e = Some f
                    /\ (endsWith (e_filename e) (js ".mp3") = true
                        \/ endsWith (e_filename e) (js ".wav") = true)
                    /\ e = mkentry (e_filename e) (N.of_nat (length (f_bytes f)))
                                   (f_birthtime f) (f_mtime f))
    /\ StronglySorted not_older files.
Proof.
  eexists. split; [apply get_audio_list_run|].
  split; [apply Array_sort_perm|].
  split; [|apply newest_first_sorted].
  intros e. rewrite Array_sort_perm, list_elem_of_fmap. split.
  - intros ([n f] & -> & Hin). apply list_elem_of_In, List.filter_In in Hin.
    destruct Hin as [Hin Hl]. apply list_elem_of_In, elem_of_map_to_list in Hin.
    exists f. cbn in *. split; [exact Hin|]. split; [|reflexivity].
    apply orb_true_iff. exact Hl.
  - intros (f & Hf & Hext & He). exists (e_filename e, f). split; [exact He|].
    apply list_elem_of_In, List.filter_In. split.
    + apply list_elem_of_In, elem_of_map_to_list. exact Hf.
    + apply orb_true_iff. exact Hext.
Qed.

(** C7, as stated, fails: a [.wav] entry of the persistent directory is
    listed although it does not carry the canonical [.mp3] extension. *)
Lemma listing_includes_wav_entries :
  exists files e,
    st_res (run get_audio_list world_ok mixed_state)
    = Some (mkresponse 200 [] (BFiles files))
    /\ In e files
    /\ e_filename e = js "temp_2_b.wav"
    /\ endsWith (e_filename e) (js ".mp3") = false.
Proof.
  exists [ mkentry (js "temp_2_b.wav") 4 20 20; mkentry (js "audio_1_a.mp3") 3 10 10 ],
         (mkentry (js "temp_2_b.wav") 4 20 20).
  split; [vm_compute; reflexivity|].
  split; [left; reflexivity|].
  split; reflexivity.
Qed.

(** ** Artifact names *)

Lemma uint_units_digits d : Forall is_digit (uint_units d).
Proof. induction d; simpl; constructor; auto; unfold is_digit; lia. Qed.

Lemma uint_units_inj d1 : forall d2, uint_units d1 = uint_units d2 -> d1 = d2.
Proof.
  induction d1; intros d2 H; destruct d2; simpl in H; try discriminate;
    try reflexivity; injection H as H; f_equal; auto.
Qed.

Lemma Number_toString_inj a b : Number_toString a = Number_toString b -> a = b.
Proof.
  unfold Number_toString. intros H.
  rewrite <- (DecimalZ.of_to a), <- (DecimalZ.of_to b).
  destruct (Z.to_int a) as [da|da], (Z.to_int b) as [db|db].
  - apply uint_units_inj in H. subst. reflexivity.
  - pose proof (uint_units_digits da) as Hd. rewrite H in Hd.
    inversion Hd as [|c l Hc _]; subst. unfold is_digit in Hc.
    change (chr "-") with 45 in Hc. lia.
  - pose proof (uint_units_digits db) as Hd. rewrite <- H in Hd.
    inversion Hd as [|c l Hc _]; subst. unfold is_digit in Hc.
    change (chr "-") with 45 in Hc. lia.
  - injection H as H. apply uint_units_inj in H. subst. reflexivity.
Qed.

Lemma Number_toString_no_underscore z : ~ In (chr "_") (Number_toString z).
Proof.
  unfold Number_toString. intros Hin.
  assert (Hd : forall d, ~ In (chr "_") (uint_units d)).
  { intros d H. pose proof (uint_units_digits d) as Hall.
    rewrite List.Forall_forall in Hall. apply Hall in H.
    unfold is_digit in H. change (chr "_") with 95 in H. lia. }
  destruct (Z.to_int z) as [d|d].
  - exact (Hd d Hin).
  - destruct Hin as [H | H]; [discriminate H | exact (Hd d H)].
Qed.

(** Two strings cut at their first underscore. *)
Lemma split_at_underscore (a b x y : jsstring) :
  ~ In (chr "_") a -> ~ In (chr "_") b ->
  a ++ chr "_" :: x = b ++ chr "_" :: y -> a = b /\ x = y.
Proof.
  revert b. induction a as [|c a IH]; intros [|d b] Ha Hb H; simpl in *.
  - injection H as H. auto.
  - injection H as H _. exfalso. apply Hb. left. symmetry. exact H.
  - injection H as H _. exfalso. apply Ha. left. exact H.
  - injection H as Hc H. destruct (IH b) as [-> ->]; auto. subst; auto.
Qed.

Lemma name_body_inj (t1 t2 : Z) (u1 u2 ext : jsstring) :
  Number_toString t1 ++ js "_" ++ u1 ++ ext
  = Number_toString t2 ++ js "_" ++ u2 ++ ext ->
  t1 = t2 /\ u1 = u2.
Proof.
  intros H.
  apply split_at_underscore in H as [Ht Hu];
    try apply Number_toString_no_underscore.
  split; [apply Number_toString_inj; exact Ht | apply app_inv_tail in Hu; exact Hu].
Qed.

(** ** Filesystem updates *)

Lemma fs_lookup_put_file_eq p bytes now fs :
  fs_lookup (put_file p bytes now fs) p
  = Some (mkfile bytes
                 (match fs_lookup fs p with
                  | Some old => f_birthtime old
                  | None => now
                  end) now).
Proof. destruct p as [[] n]; fs_unfold; apply lookup_insert_eq. Qed.

Lemma fs_lookup_put_file_ne p q bytes now fs :
  p <> q -> fs_lookup (put_file p bytes now fs) q = fs_lookup fs q.
Proof.
  destruct p as [dp np], q as [dq nq]. intros Hne.
  destruct dp, dq; fs_unfold; try reflexivity;
    apply lookup_insert_ne; congruence.
Qed.

Lemma fs_lookup_remove_file_eq p fs : fs_lookup (remove_file p fs) p = None.
Proof. destruct p as [[] n]; fs_unfold; apply lookup_delete_eq. Qed.

Lemma fs_lookup_remove_file_ne p q fs :
  p <> q -> fs_lookup (remove_file p fs) q = fs_lookup fs q.
Proof.
  destruct p as [dp np], q as [dq nq]. intros Hne.
  destruct dp, dq; fs_unfold; try reflexivity;
    apply lookup_delete_ne; congruence.
Qed.

(** ** Effect of the pipeline stages *)

Lemma convertToMp3_ok W s i o bytes :
  ffmpeg_outcome W = inr bytes ->
  convertToMp3 i o W s
  = (inr o,
     mkState (put_file o bytes (fs_clock W) (st_fs s))
             (st_ops s ++ [OpRead i; OpWrite o])
             (st_sent s) (st_res s) (st_requests s) (st_timers s)).
Proof.
  intros H. unfold convertToMp3. mstep. rewrite H. mstep.
  rewrite <- app_assoc. reflexivity.
Qed.

Lemma convertToMp3_fails W s i o err :
  ffmpeg_outcome W = inl err ->
  convertToMp3 i o W s
  = (inl err,
     mkState (st_fs s) (st_ops s ++ [OpRead i])
             (st_sent s) (st_res s) (st_requests s) (st_timers s)).
Proof. intros H. unfold convertToMp3. mstep. rewrite H. reflexivity. Qed.

Lemma saveAudioChunk_ok W s payload filename :
  writeFile_error W = None ->
  saveAudioChunk (Some (JStr payload)) filename W s
  = (inr (path_join AudioDir filename),
     mkState (put_file (path_join AudioDir filename)
                       (Buffer_from_base64 W (strip_data_url payload))
                       (fs_clock W) (st_fs s))
             (st_ops s ++ [OpWrite (path_join AudioDir filename)])
             (st_sent s) (st_res s) (st_requests s) (st_timers s)).
Proof. intros H. unfold saveAudioChunk. mstep. rewrite H. reflexivity. Qed.

Lemma saveAudioChunk_write_fails W s payload filename err :
  writeFile_error W = Some err ->
  saveAudioChunk (Some (JStr payload)) filename W s
  = (inl err,
     mkState (st_fs s) (st_ops s ++ [OpWrite (path_join AudioDir filename)])
             (st_sent s) (st_res s) (st_requests s) (st_timers s)).
Proof. intros H. unfold saveAudioChunk. mstep. rewrite H. reflexivity. Qed.

Lemma transcribeAudio_found W s p f :
  fs_lookup (st_fs s) p = Some f ->
  transcribeAudio p W s
  = (inr (mock_text (randomIndex_of (Math_random W))
                    (fileSizeKB_of (N.of_nat (length (f_bytes f))))),
     mkState (st_fs s) (st_ops s ++ [OpExists p; OpStat p])
             (st_sent s) (st_res s) (st_requests s)
             (st_timers s
              ++ [processingTime_of
                    (fileSizeKB_of (N.of_nat (length (f_bytes f))))])).
Proof.
  intros H. unfold transcribeAudio. mstep. rewrite H. mstep. rewrite H.
  rewrite <- app_assoc. reflexivity.
Qed.

Lemma transcribeAudio_missing W s p :
  fs_lookup (st_fs s) p = None ->
  transcribeAudio p W s
  = (inl (js "Audio file not found"),
     mkState (st_fs s) (st_ops s ++ [OpExists p])
             (st_sent s) (st_res s) (st_requests s) (st_timers s)).
Proof. intros H. unfold transcribeAudio. mstep. rewrite H. reflexivity. Qed.

Lemma cleanup_absent W s p :
  fs_lookup (st_fs s) p = None ->
  cleanup p W s
  = (inr tt,
     mkState (st_fs s) (st_ops s ++ [OpExists p])
             (st_sent s) (st_res s) (st_requests s) (st_timers s)).
Proof. intros H. unfold cleanup. mstep. rewrite H. reflexivity. Qed.

Lemma cleanup_present W s p f :
  fs_lookup (st_fs s) p = Some f ->
  cleanup p W s
  = (inr tt,
     mkState (match unlink_error W with
              | None => remove_file p (st_fs s)
              | Some _ => st_fs s
              end)
             (st_ops s ++ [OpExists p; OpUnlink p])
             (st_sent s) (st_res s) (st_requests s) (st_timers s)).
Proof.
  intros H. unfold cleanup. mstep. rewrite H. mstep.
  rewrite <- app_assoc.
  destruct (unlink_error W); [reflexivity|]. mstep. rewrite H. reflexivity.
Qed.

Lemma cleanup_run W s p :
  cleanup p W s
  = (inr tt,
     mkState (cleanup_fs W p (st_fs s)) (st_ops s ++ cleanup_ops p (st_fs s))
             (st_sent s) (st_res s) (st_requests s) (st_timers s)).
Proof.
  unfold cleanup_fs, cleanup_ops.
  destruct (fs_lookup (st_fs s) p) as [f|] eqn:E.
  - rewrite (cleanup_present W s p f E). reflexivity.
  - rewrite (cleanup_absent W s p E). reflexivity.
Qed.

Lemma handleTranslation_run W s data :
  handleTranslation data W s
  = (inr tt,
     mkState (st_fs s) (st_ops s)
             (st_sent s ++ [translation_notification W data])
             (st_res s) (st_requests s ++ [translation_request data])
             (st_timers s)).
Proof.
  unfold handleTranslation, axios_post_generate, call_trim,
    translation_notification, translation_request.
  mstep.
  destruct (axios_post_outcome W) as [err | [[| | |completion| |]|]]; reflexivity.
Qed.

Lemma trimStart_keeps c s :
  In c s -> is_js_whitespace c = false -> In c (trimStart s).
Proof.
  intros Hin Hc. induction s as [|d s IH]; [contradiction|].
  cbn [trimStart]. destruct (is_js_whitespace d) eqn:Hd; [|exact Hin].
  destruct Hin as [-> | Hin]; [congruence | auto].
Qed.

Lemma trim_keeps c s : In c s -> is_js_whitespace c = false -> In c (trim s).
Proof.
  intros Hin Hc. unfold trim.
  apply in_rev. rewrite rev_involutive.
  apply trimStart_keeps; [|exact Hc].
  apply -> in_rev. apply trimStart_keeps; assumption.
Qed.

Lemma nonempty_In c (s : jsstring) : In c s -> nonempty s = true.
Proof. destruct s; [contradiction | reflexivity]. Qed.

Lemma mock_text_has_K i kb : In (chr "K") (mock_text i kb).
Proof.
  unfold mock_text. rewrite !in_app_iff. do 3 right. left. reflexivity.
Qed.

Lemma mock_text_not_blank i kb :
  nonempty (mock_text i kb) && nonempty (trim (mock_text i kb)) = true.
Proof.
  rewrite (nonempty_In (chr "K")) by apply mock_text_has_K.
  rewrite (nonempty_In (chr "K")); [reflexivity|].
  apply trim_keeps; [apply mock_text_has_K | reflexivity].
Qed.

Lemma temp_mp3_distinct W : temp_path W <> audio_mp3_path W.
Proof. unfold temp_path, audio_mp3_path. intros H. discriminate H. Qed.

Lemma truthy_payload payload :
  payload <> [] -> truthy (Some (JStr payload)) = true.
Proof. destruct payload; [congruence | reflexivity]. Qed.

(** ** Streaming handler, path by path *)

Lemma handleAudioChunk_converted W s data payload bytes :
  get_prop data (js "audioData") = Some (JStr payload) ->
  payload <> [] ->
  writeFile_error W = None ->
  ffmpeg_outcome W = inr bytes ->
  run (handleAudioChunk data) W s
  = mkState
      (cleanup_fs W (temp_path W)
         (put_file (audio_mp3_path W) bytes (fs_clock W)
                   (staged_fs W payload (st_fs s))))
      (st_ops s
       ++ [ OpWrite (temp_path W); OpRead (temp_path W);
            OpWrite (audio_mp3_path W); OpExists (audio_mp3_path W);
            OpStat (audio_mp3_path W) ]
       ++ cleanup_ops (temp_path W)
            (put_file (audio_mp3_path W) bytes (fs_clock W)
                      (staged_fs W payload (st_fs s))))
      (st_sent s
       ++ [ transcription_message W data (transcript_of W bytes);
            translation_notification W
              (auto_translate_data W data (transcript_of W bytes)) ])
      (st_res s)
      (st_requests s
       ++ [ translation_request
              (auto_translate_data W data (transcript_of W bytes)) ])
      (st_timers s
       ++ [ processingTime_of (fileSizeKB_of (N.of_nat (length bytes))) ]).
Proof.
  intros Ha Hp Hw Hf. unfold handleAudioChunk. mstep.
  rewrite Ha, (truthy_payload _ Hp). mstep.
  rewrite (saveAudioChunk_ok W s payload _ Hw).
  rewrite (convertToMp3_ok W _ _ _ bytes Hf). mproj.
  erewrite transcribeAudio_found by apply fs_lookup_put_file_eq.
  mproj. cbn [f_bytes]. rewrite mock_text_not_blank.
  rewrite handleTranslation_run, cleanup_run. mproj.
  unfold temp_path, audio_mp3_path, staged_fs, transcript_of, temp_path.
  rewrite <- !app_assoc. reflexivity.
Qed.

Lemma handleAudioChunk_conversion_fails W s data payload err :
  get_prop data (js "audioData") = Some (JStr payload) ->
  payload <> [] ->
  writeFile_error W = None ->
  ffmpeg_outcome W = inl err ->
  run (handleAudioChunk data) W s
  = mkState (staged_fs W payload (st_fs s))
            (st_ops s ++ [OpWrite (temp_path W); OpRead (temp_path W)])
            (st_sent s ++ [error_notification (js "Transcription failed: " ++ err)])
            (st_res s) (st_requests s) (st_timers s).
Proof.
  intros Ha Hp Hw Hf. unfold handleAudioChunk. mstep.
  rewrite Ha, (truthy_payload _ Hp). mstep.
  rewrite (saveAudioChunk_ok W s payload _ Hw).
  rewrite (convertToMp3_fails W _ _ _ err Hf). mproj.
  rewrite <- !app_assoc. reflexivity.
Qed.

Lemma handleAudioChunk_no_audio W s data :
  truthy (get_prop data (js "audioData")) = false ->
  run (handleAudioChunk data) W s
  = mkState (st_fs s) (st_ops s)
            (st_sent s ++ [error_notification
                             (js "Transcription failed: " ++ js "No audio data provided")])
            (st_res s) (st_requests s) (st_timers s).
Proof. intros Ha. unfold handleAudioChunk. mstep. rewrite Ha. reflexivity. Qed.

Lemma handleAudioChunk_write_fails W s data payload err :
  get_prop data (js "audioData") = Some (JStr payload) ->
  payload <> [] ->
  writeFile_error W = Some err ->
  run (handleAudioChunk data) W s
  = mkState (st_fs s) (st_ops s ++ [OpWrite (temp_path W)])
            (st_sent s ++ [error_notification (js "Transcription failed: " ++ err)])
            (st_res s) (st_requests s) (st_timers s).
Proof.
  intros Ha Hp Hw. unfold handleAudioChunk. mstep.
  rewrite Ha, (truthy_payload _ Hp). mstep.
  rewrite (saveAudioChunk_write_fails W s payload _ err Hw). reflexivity.
Qed.

(** ** Upload handler, path by path *)

Lemma post_transcribe_no_file W s req :
  req_file req = None ->
  run (post_transcribe req) W s
  = mkState (st_fs s) (st_ops s) (st_sent s)
            (Some (mkresponse 400 []
                     (BJson [ (js "error", JStr (js "No audio file provided")) ])))
            (st_requests s) (st_timers s).
Proof. intros Hr. unfold post_transcribe. mstep. rewrite Hr. reflexivity. Qed.

Lemma post_transcribe_converted W s req file bytes :
  req_file req = Some file ->
  ffmpeg_outcome W = inr bytes ->
  run (post_transcribe req) W s
  = mkState
      (cleanup_fs W (uf_path file)
         (put_file (uploaded_mp3_path W) bytes (fs_clock W) (st_fs s)))
      (st_ops s
       ++ [ OpRead (uf_path file); OpWrite (uploaded_mp3_path W);
            OpExists (uploaded_mp3_path W); OpStat (uploaded_mp3_path W) ]
       ++ cleanup_ops (uf_path file)
            (put_file (uploaded_mp3_path W) bytes (fs_clock W) (st_fs s)))
      (st_sent s)
      (Some (upload_success_response W file (transcript_of W bytes)
               (upload_translation W (effective_targetLanguage req)
                                   (transcript_of W bytes))))
      (st_requests s
       ++ upload_requests (effective_targetLanguage req) (transcript_of W bytes))
      (st_timers s
       ++ [ processingTime_of (fileSizeKB_of (N.of_nat (length bytes))) ]).
Proof.
  intros Hr Hf. unfold post_transcribe. mstep. rewrite Hr. mstep.
  rewrite (convertToMp3_ok W _ _ _ bytes Hf). mproj.
  erewrite transcribeAudio_found by apply fs_lookup_put_file_eq.
  mproj. cbn [f_bytes].
  unfold upload_translation, upload_requests, upload_success_response.
  change (match req_targetLanguage req with
          | Some l => l
          | None => js "en"
          end) with (effective_targetLanguage req).
  fold (transcript_of W bytes).
  change (nonempty (effective_targetLanguage req)
          && negb (jsstring_eqb (effective_targetLanguage req) (js "auto"))
          && nonempty (trim (transcript_of W bytes)))
    with (translation_gate (effective_targetLanguage req) (transcript_of W bytes)).
  destruct (translation_gate (effective_targetLanguage req) (transcript_of W bytes)).
  - unfold axios_post_generate, call_trim. mstep.
    destruct (axios_post_outcome W) as [err | [[| | |completion| |]|]];
      mstep; rewrite cleanup_run; mproj; unfold uploaded_mp3_path;
      rewrite <- !app_assoc; reflexivity.
  - mstep. rewrite cleanup_run. mproj. unfold uploaded_mp3_path.
    rewrite <- !app_assoc, app_nil_r. reflexivity.
Qed.

Lemma post_transcribe_conversion_fails W s req file err :
  req_file req = Some file ->
  ffmpeg_outcome W = inl err ->
  run (post_transcribe req) W s
  = mkState (cleanup_fs W (uf_path file) (st_fs s))
            (st_ops s ++ [OpRead (uf_path file)]
             ++ cleanup_ops (uf_path file) (st_fs s))
            (st_sent s)
            (Some (upload_failure_response err))
            (st_requests s) (st_timers s).
Proof.
  intros Hr Hf. unfold post_transcribe. mstep. rewrite Hr. mstep.
  rewrite (convertToMp3_fails W _ _ _ err Hf). mproj.
  rewrite cleanup_run. mproj. rewrite <- !app_assoc. reflexivity.
Qed.

(** ** Placeholder transcription backend *)





(** ** Streaming dispatcher *)

(** C9. A message whose [type] is none of [audio-chunk], [translate],
    [get-models] (including a message with no [type] at all) is answered on
    the same connection with exactly one [error] message, and nothing else
    happens. *)
Theorem unknown_type_gets_error_reply (W : World) (s : State) (data : json) :
  (forall t, get_prop data (js "type") = Some (JStr t) ->
             t <> js "audio-chunk" /\ t <> js "translate" /\ t <> js "get-models") ->
  run (on_message (inr data)) W s
  = mkState (st_fs s) (st_ops s)
            (st_sent s
             ++ [error_notification
                   (match data with
                    | JNull => msg_TypeError W
                    | _ => js "Unknown message type"
                    end)])
            (st_res s) (st_requests s) (st_timers s).
Proof.
  intros Hty. unfold on_message. mstep.
  destruct data as [| b | q | str | items | fields]; try reflexivity.
  mstep. destruct (get_prop (JObj fields) (js "type")) as [[| | |t| |]|] eqn:E;
    try reflexivity.
  destruct (Hty t eq_refl) as (H1 & H2 & H3).
  unfold jsstring_eqb.
  rewrite !bool_decide_eq_false_2 by assumption. reflexivity.
Qed.

Lemma unknown_type_gets_error_reply_witness :
  run (on_message (inr (JObj [ (js "type", JStr (js "ping")) ]))) world_ok empty_state
  = mkState (st_fs empty_state) []
            [error_notification (js "Unknown message type")] None [] [].
Proof.
  apply (unknown_type_gets_error_reply world_ok empty_state
           (JObj [ (js "type", JStr (js "ping")) ])).
  intros t Ht. injection Ht as <-. repeat split; discriminate.
Defined.

(** ** Clean-up and what the retrieval endpoints show *)

Lemma cleanup_fs_lookup_other W p q fs :
  p <> q -> fs_lookup (cleanup_fs W p fs) q = fs_lookup fs q.
Proof.
  intros Hne. unfold cleanup_fs.
  destruct (fs_lookup fs p), (unlink_error W); try reflexivity.
  apply fs_lookup_remove_file_ne; exact Hne.
Qed.

Lemma cleanup_fs_released W p fs :
  unlink_error W = None -> fs_lookup (cleanup_fs W p fs) p = None.
Proof.
  intros Hu. unfold cleanup_fs. rewrite Hu.
  destruct (fs_lookup fs p) eqn:E; [apply fs_lookup_remove_file_eq | exact E].
Qed.

Lemma startsWith_app (p r : jsstring) : startsWith (p ++ r) p = true.
Proof.
  induction p as [|c p IH]; [destruct r; reflexivity|].
  cbn [app startsWith]. rewrite N.eqb_refl. exact IH.
Qed.

Lemma endsWith_app (a suffix : jsstring) : endsWith (a ++ suffix) suffix = true.
Proof. unfold endsWith. rewrite rev_app_distr. apply startsWith_app. Qed.

Lemma Number_toString_filename_chars z :
  Forall (fun c => filename_char c = true) (Number_toString z).
Proof.
  assert (Hd : forall d, Forall (fun c => filename_char c = true) (uint_units d)).
  { intros d. eapply Forall_impl; [apply uint_units_digits|].
    intros c [Hlo Hhi]. unfold filename_char, in_range.
    change (chr "0") with 48. change (chr "9") with 57.
    rewrite (proj2 (N.leb_le 48 c) Hlo), (proj2 (N.leb_le c 57) Hhi).
    rewrite !orb_true_r. reflexivity. }
  unfold Number_toString. destruct (Z.to_int z); [apply Hd|].
  constructor; [reflexivity | apply Hd].
Qed.

Lemma tempFilename_valid timestamp uniqueId :
  Forall (fun c => filename_char c = true) uniqueId ->
  valid_audio_filename (tempFilename_of timestamp uniqueId) = true.
Proof.
  intros Hu. apply valid_audio_filename_shape.
  exists (js "temp_" ++ Number_toString timestamp ++ js "_" ++ uniqueId), (js "wav").
  split; [|split; [|split]].
  - unfold tempFilename_of. change (js ".wav") with (js "." ++ js "wav").
    rewrite <- !app_assoc. reflexivity.
  - discriminate.
  - repeat (apply Forall_app; split); try exact Hu;
      try apply Number_toString_filename_chars; repeat constructor.
  - right. reflexivity.
Qed.

Lemma tempFilename_listed timestamp uniqueId :
  listed (tempFilename_of timestamp uniqueId) = true.
Proof.
  unfold listed, tempFilename_of. rewrite !app_assoc.
  rewrite (endsWith_app _ (js ".wav")). apply orb_true_r.
Qed.

Lemma exposed_intro name f s :
  audio (st_fs s) !! name = Some f ->
  valid_audio_filename name = true ->
  listed name = true ->
  exposed name (f_bytes f) s.
Proof.
  intros Hf Hv Hl. exists f. split; [exact Hf|]. split; [reflexivity|]. split.
  - intros W. rewrite get_audio_file_valid, Hf by exact Hv. reflexivity.
  - intros W. eexists. split; [apply get_audio_list_run|].
    rewrite Array_sort_perm. apply list_elem_of_fmap. exists (name, f).
    split; [reflexivity|]. apply list_elem_of_In, List.filter_In.
    split; [|exact Hl]. apply list_elem_of_In, elem_of_map_to_list. exact Hf.
Qed.

(** ** Release of the staged source artifact *)

(** The upload handler releases the staged upload on the success branch and
    on the conversion-failure branch alike (its clean-up is in [finally]). *)
Lemma upload_releases_staged_file W s req file :
  req_file req = Some file ->
  p_dir (uf_path file) = UploadsDir ->
  unlink_error W = None ->
  fs_lookup (st_fs (run (post_transcribe req) W s)) (uf_path file) = None.
Proof.
  intros Hr Hd Hu. destruct (ffmpeg_outcome W) as [err|bytes] eqn:Hf.
  - rewrite (post_transcribe_conversion_fails W s req file err Hr Hf). mproj.
    apply cleanup_fs_released; exact Hu.
  - rewrite (post_transcribe_converted W s req file bytes Hr Hf). mproj.
    apply cleanup_fs_released; exact Hu.
Qed.

(** The streaming handler releases the staged file when every stage
    succeeded. *)
Lemma streaming_success_releases_staged_file W s data payload bytes :
  get_prop data (js "audioData") = Some (JStr payload) ->
  payload <> [] ->
  writeFile_error W = None ->
  ffmpeg_outcome W = inr bytes ->
  unlink_error W = None ->
  fs_lookup (st_fs (run (handleAudioChunk data) W s)) (temp_path W) = None.
Proof.
  intros Ha Hp Hw Hf Hu.
  rewrite (handleAudioChunk_converted W s data payload bytes Ha Hp Hw Hf). mproj.
  apply cleanup_fs_released; exact Hu.
Qed.

(** C2 at its failing input. A streaming job whose conversion fails reaches
    its terminal state (the [error] notification is sent) with the staged
    file still present: the only filesystem accesses were the staging write
    and ffmpeg's read, no [unlink]. *)
Theorem streaming_failure_keeps_staged_file
        (W : World) (s : State) (data : json) (payload err : jsstring) :
  get_prop data (js "audioData") = Some (JStr payload) ->
  payload <> [] ->
  writeFile_error W = None ->
  ffmpeg_outcome W = inl err ->
  (exists f, fs_lookup (st_fs (run (handleAudioChunk data) W s)) (temp_path W) = Some f
             /\ f_bytes f = Buffer_from_base64 W (strip_data_url payload))
  /\ st_ops (run (handleAudioChunk data) W s)
     = st_ops s ++ [OpWrite (temp_path W); OpRead (temp_path W)]
  /\ st_sent (run (handleAudioChunk data) W s)
     = st_sent s ++ [error_notification (js "Transcription failed: " ++ err)].
Proof.
  intros Ha Hp Hw Hf.
  rewrite (handleAudioChunk_conversion_fails W s data payload err Ha Hp Hw Hf).
  mproj. split; [|split; reflexivity].
  unfold staged_fs. rewrite fs_lookup_put_file_eq. eexists. split; reflexivity.
Qed.

Lemma streaming_failure_keeps_staged_file_witness :
  (exists f, fs_lookup (st_fs (run (handleAudioChunk sample_chunk)
                                   world_conversion_fails empty_state))
                       (temp_path world_conversion_fails) = Some f
             /\ f_bytes f
                = Buffer_from_base64 world_conversion_fails
                    (strip_data_url (js "data:audio/wav;base64,UklGRg==")))
  /\ st_ops (run (handleAudioChunk sample_chunk) world_conversion_fails empty_state)
     = st_ops empty_state
       ++ [ OpWrite (temp_path world_conversion_fails);
            OpRead (temp_path world_conversion_fails) ]
  /\ st_sent (run (handleAudioChunk sample_chunk) world_conversion_fails empty_state)
     = st_sent empty_state
       ++ [ error_notification
              (js "Transcription failed: "
               ++ js "Invalid data found when processing input") ].
Proof.
  apply (streaming_failure_keeps_staged_file world_conversion_fails empty_state
           sample_chunk (js "data:audio/wav;base64,UklGRg==")
           (js "Invalid data found when processing input")).
  - vm_compute. reflexivity.
  - vm_compute. discriminate.
  - vm_compute. reflexivity.
  - vm_compute. reflexivity.
Defined.

(** C3 at its failing input. The streaming handler stages the pre-conversion
    payload inside the persistent audio directory: right after the staging
    step the file is served by the download endpoint and shown by the
    listing, and when the conversion then fails it stays so. *)
Theorem staged_file_is_exposed
        (W : World) (s : State) (data : json) (payload err : jsstring) :
  get_prop data (js "audioData") = Some (JStr payload) ->
  payload <> [] ->
  writeFile_error W = None ->
  Forall (fun c => filename_char c = true) (uuidv4 W) ->
  exposed (tempFilename_of (Date_now W) (uuidv4 W))
          (Buffer_from_base64 W (strip_data_url payload))
          (snd (saveAudioChunk (Some (JStr payload))
                               (tempFilename_of (Date_now W) (uuidv4 W)) W s))
  /\ (ffmpeg_outcome W = inl err ->
      exposed (tempFilename_of (Date_now W) (uuidv4 W))
              (Buffer_from_base64 W (strip_data_url payload))
              (run (handleAudioChunk data) W s)).
Proof.
  intros Ha Hp Hw Hu.
  assert (Hlook : fs_lookup (staged_fs W payload (st_fs s)) (temp_path W)
                  = Some (mkfile (Buffer_from_base64 W (strip_data_url payload))
                                 (match fs_lookup (st_fs s) (temp_path W) with
                                  | Some old => f_birthtime old
                                  | None => fs_clock W
                                  end) (fs_clock W)))
    by apply fs_lookup_put_file_eq.
  split.
  - rewrite (saveAudioChunk_ok W s payload _ Hw). mproj.
    eapply (exposed_intro _ (mkfile _ _ _)).
    + exact Hlook.
    + apply tempFilename_valid; exact Hu.
    + apply tempFilename_listed.
  - intros Hf.
    rewrite (handleAudioChunk_conversion_fails W s data payload err Ha Hp Hw Hf).
    eapply (exposed_intro _ (mkfile _ _ _)).
    + exact Hlook.
    + apply tempFilename_valid; exact Hu.
    + apply tempFilename_listed.
Qed.

Lemma staged_file_is_exposed_witness :
  exposed (tempFilename_of (Date_now world_conversion_fails)
                           (uuidv4 world_conversion_fails))
          (Buffer_from_base64 world_conversion_fails
             (strip_data_url (js "data:audio/wav;base64,UklGRg==")))
          (run (handleAudioChunk sample_chunk) world_conversion_fails empty_state).
Proof.
  apply (staged_file_is_exposed world_conversion_fails empty_state
           sample_chunk (js "data:audio/wav;base64,UklGRg==")
           (js "Invalid data found when processing input")).
  - vm_compute. reflexivity.
  - vm_compute. discriminate.
  - vm_compute. reflexivity.
  - apply (bool_decide_unpack _). vm_compute. exact I.
  - vm_compute. reflexivity.
Defined.

(** ** One-shot upload: translation *)

(** C4. When the conversion (hence the transcription) of an upload succeeds
    and the translation call fails -- the request is rejected, or the reply
    has no completion string -- the handler still answers 200 with the
    populated transcript, the canonical filename and [translation: null]. *)
Theorem translation_failure_is_not_fatal
        (W : World) (s : State) (req : upload_request) (file : upload_file)
        (bytes : list N) :
  req_file req = Some file ->
  ffmpeg_outcome W = inr bytes ->
  (forall completion, axios_post_outcome W <> inr (Some (JStr completion))) ->
  st_res (run (post_transcribe req) W s)
  = Some (mkresponse 200 []
            (BJson [ (js "transcription", JStr (transcript_of W bytes));
                     (js "audioFile",
                      JStr (uploaded_mp3Filename (Date_now W) (uuidv4 W)));
                     (js "translation", JNull);
                     (js "timestamp", JStr (toISOString W));
                     (js "originalFile", JStr (uf_originalname file)) ]))
  /\ trim (transcript_of W bytes) <> [].
Proof.
  intros Hr Hf Hfail. split.
  - rewrite (post_transcribe_converted W s req file bytes Hr Hf). mproj.
    unfold upload_success_response, upload_translation.
    destruct (translation_gate _ _); [|reflexivity].
    destruct (axios_post_outcome W) as [err | [[| | |completion| |]|]] eqn:E;
      try reflexivity.
    exfalso. exact (Hfail completion eq_refl).
  - intros Hblank. pose proof (mock_text_not_blank
      (randomIndex_of (Math_random W))
      (fileSizeKB_of (N.of_nat (length bytes)))) as Hnb.
    unfold transcript_of in Hblank. rewrite Hblank in Hnb.
    rewrite andb_false_r in Hnb. discriminate Hnb.
Qed.

Lemma translation_failure_is_not_fatal_witness :
  st_res (run (post_transcribe (mkrequest (Some sample_upload) (Some (js "en"))))
              world_translation_fails uploaded_state)
  = Some (mkresponse 200 []
            (BJson [ (js "transcription",
                      JStr (transcript_of world_translation_fails [73; 68; 51]));
                     (js "audioFile",
                      JStr (uploaded_mp3Filename (Date_now world_translation_fails)
                                                 (uuidv4 world_translation_fails)));
                     (js "translation", JNull);
                     (js "timestamp", JStr (toISOString world_translation_fails));
                     (js "originalFile", JStr (uf_originalname sample_upload)) ]))
  /\ trim (transcript_of world_translation_fails [73; 68; 51]) <> [].
Proof.
  apply (translation_failure_is_not_fatal world_translation_fails uploaded_state
           (mkrequest (Some sample_upload) (Some (js "en"))) sample_upload
           [73; 68; 51]).
  - reflexivity.
  - reflexivity.
  - intros completion H. vm_compute in H. discriminate H.
Defined.

Lemma translation_gate_spec targetLanguage text :
  translation_gate targetLanguage text = true
  <-> targetLanguage <> [] /\ targetLanguage <> js "auto" /\ trim text <> [].
Proof.
  unfold translation_gate, jsstring_eqb.
  rewrite !andb_true_iff, negb_true_iff, bool_decide_eq_false.
  assert (Hne : forall l : list N, nonempty l = true <-> l <> [])
    by (intros []; simpl; split; congruence).
  rewrite !Hne. tauto.
Qed.

(** C10 (as amended). On the upload path the target language is the
    supplied field, or ['en'] when the field is absent. The translation call
    is made (once) exactly when that language is non-empty and differs from
    ['auto'] and the transcript is non-empty after trimming; in every other
    case no call is made and the response's [translation] is [null]. *)
Theorem upload_translation_gate
        (W : World) (s : State) (req : upload_request) (file : upload_file)
        (bytes : list N) :
  req_file req = Some file ->
  ffmpeg_outcome W = inr bytes ->
  effective_targetLanguage req
  = match req_targetLanguage req with
    | None => js "en"
    | Some l => l
    end
  /\ (effective_targetLanguage req <> []
      /\ effective_targetLanguage req <> js "auto"
      /\ trim (transcript_of W bytes) <> [] ->
      st_requests (run (post_transcribe req) W s)
      = st_requests s
        ++ [PostGenerate (PromptTo (effective_targetLanguage req)
                                   (transcript_of W bytes))])
  /\ (~ (effective_targetLanguage req <> []
         /\ effective_targetLanguage req <> js "auto"
         /\ trim (transcript_of W bytes) <> []) ->
      st_requests (run (post_transcribe req) W s) = st_requests s
      /\ st_res (run (post_transcribe req) W s)
         = Some (upload_success_response W file (transcript_of W bytes) JNull)).
Proof.
  intros Hr Hf. split; [reflexivity|].
  rewrite (post_transcribe_converted W s req file bytes Hr Hf). mproj.
  unfold upload_requests, upload_translation.
  split; intros Hg; rewrite <- translation_gate_spec in Hg.
  - rewrite Hg. reflexivity.
  - apply not_true_is_false in Hg. rewrite Hg, app_nil_r. split; reflexivity.
Qed.

Lemma upload_translation_gate_witness :
  st_requests (run (post_transcribe (mkrequest (Some sample_upload) (Some (js "auto"))))
                   world_ok uploaded_state)
  = st_requests uploaded_state
  /\ st_res (run (post_transcribe (mkrequest (Some sample_upload) (Some (js "auto"))))
                 world_ok uploaded_state)
     = Some (upload_success_response world_ok sample_upload
               (transcript_of world_ok [73; 68; 51]) JNull).
Proof.
  apply (upload_translation_gate world_ok uploaded_state
           (mkrequest (Some sample_upload) (Some (js "auto"))) sample_upload
           [73; 68; 51] eq_refl eq_refl).
  intros (_ & Hauto & _). apply Hauto. reflexivity.
Defined.

(** C10, as stated, fails: with the [targetLanguage] field absent the
    translation is requested (towards ['en']) and the response carries it. *)
Lemma absent_targetLanguage_is_translated :
  req_targetLanguage (mkrequest (Some sample_upload) None) = None
  /\ st_requests (run (post_transcribe (mkrequest (Some sample_upload) None))
                      world_ok uploaded_state)
     = [PostGenerate (PromptTo (js "en") (transcript_of world_ok [73; 68; 51]))]
  /\ st_res (run (post_transcribe (mkrequest (Some sample_upload) None))
                 world_ok uploaded_state)
     = Some (upload_success_response world_ok sample_upload
               (transcript_of world_ok [73; 68; 51])
               (JObj [ (js "translatedText", JStr (js "Hello."));
                       (js "targetLanguage", JStr (js "en")) ])).
Proof.
  split; [reflexivity|]. split; vm_compute; reflexivity.
Qed.

(** ** Session correlation of streaming notifications *)

Lemma transcription_message_sessionId W data text :
  get_prop (transcription_message W data text) (js "sessionId")
  = js_or (get_prop data (js "sessionId")) (Some (JStr (uuidv4 W))).
Proof.
  unfold transcription_message, js_or.
  destruct (get_prop data (js "sessionId")) as [v|]; [|reflexivity].
  destruct (truthy (Some v)); reflexivity.
Qed.

Lemma translation_message_sessionId W data completion :
  get_prop (translation_message W data completion) (js "sessionId") = None.
Proof.
  unfold translation_message.
  destruct (get_prop data (js "text")); reflexivity.
Qed.

(** C8 at its failing input. In a streaming job whose stages all succeed, the
    connection receives the [transcription] notification, tagged with the
    caller's [sessionId] (or the job's unique id when the supplied value is
    absent or falsy), and then the [translation] notification, which has no
    [sessionId] property: [handleTranslation] does not read the [sessionId]
    that [handleAudioChunk] passes to it. *)
Theorem translation_notification_lacks_sessionId
        (W : World) (s : State) (data : json) (payload : jsstring)
        (bytes : list N) (completion : jsstring) :
  get_prop data (js "audioData") = Some (JStr payload) ->
  payload <> [] ->
  writeFile_error W = None ->
  ffmpeg_outcome W = inr bytes ->
  axios_post_outcome W = inr (Some (JStr completion)) ->
  exists transcription translation,
    st_sent (run (handleAudioChunk data) W s)
    = st_sent s ++ [transcription; translation]
    /\ get_prop transcription (js "type") = Some (JStr (js "transcription"))
    /\ get_prop transcription (js "sessionId")
       = js_or (get_prop data (js "sessionId")) (Some (JStr (uuidv4 W)))
    /\ get_prop translation (js "type") = Some (JStr (js "translation"))
    /\ get_prop translation (js "translatedText") = Some (JStr (trim completion))
    /\ get_prop translation (js "sessionId") = None.
Proof.
  intros Ha Hp Hw Hf Hx.
  exists (transcription_message W data (transcript_of W bytes)),
         (translation_message W (auto_translate_data W data (transcript_of W bytes))
                              completion).
  split.
  - rewrite (handleAudioChunk_converted W s data payload bytes Ha Hp Hw Hf). mproj.
    unfold translation_notification. rewrite Hx. reflexivity.
  - split; [reflexivity|].
    split; [apply transcription_message_sessionId|].
    split; [reflexivity|]. split; [reflexivity|].
    apply translation_message_sessionId.
Qed.

Lemma translation_notification_lacks_sessionId_witness :
  exists transcription translation,
    st_sent (run (handleAudioChunk sample_chunk) world_ok empty_state)
    = st_sent empty_state ++ [transcription; translation]
    /\ get_prop transcription (js "type") = Some (JStr (js "transcription"))
    /\ get_prop transcription (js "sessionId")
       = js_or (get_prop sample_chunk (js "sessionId"))
               (Some (JStr (uuidv4 world_ok)))
    /\ get_prop translation (js "type") = Some (JStr (js "translation"))
    /\ get_prop translation (js "translatedText")
       = Some (JStr (trim (js " Hello. ")))
    /\ get_prop translation (js "sessionId") = None.
Proof.
  apply (translation_notification_lacks_sessionId world_ok empty_state
           sample_chunk (js "data:audio/wav;base64,UklGRg==") [73; 68; 51]
           (js " Hello. ")).
  - vm_compute. reflexivity.
  - vm_compute. discriminate.
  - vm_compute. reflexivity.
  - vm_compute. reflexivity.
  - vm_compute. reflexivity.
Defined.

(** ** Canonical artifact names *)

Lemma uploaded_temp_distinct W file :
  p_dir (uf_path file) = UploadsDir -> uf_path file <> uploaded_mp3_path W.
Proof. intros Hd E. rewrite E in Hd. discriminate Hd. Qed.

Lemma audio_uploaded_distinct t1 u1 t2 u2 :
  audio_mp3Filename t1 u1 <> uploaded_mp3Filename t2 u2.
Proof. intros H. discriminate H. Qed.

Lemma audio_mp3Filename_inj t1 u1 t2 u2 :
  audio_mp3Filename t1 u1 = audio_mp3Filename t2 u2 -> t1 = t2 /\ u1 = u2.
Proof.
  unfold audio_mp3Filename. intros H. apply app_inv_head in H.
  exact (name_body_inj _ _ _ _ _ H).
Qed.

Lemma uploaded_mp3Filename_inj t1 u1 t2 u2 :
  uploaded_mp3Filename t1 u1 = uploaded_mp3Filename t2 u2 -> t1 = t2 /\ u1 = u2.
Proof.
  unfold uploaded_mp3Filename. intros H. apply app_inv_head in H.
  exact (name_body_inj _ _ _ _ _ H).
Qed.

(** C5. The name under which a streaming job's converted artifact is stored
    and announced is [audio_<timestamp>_<uuid>.mp3], an upload job's is
    [uploaded_<timestamp>_<uuid>.mp3] (the underscore that follows the prefix
    word is the one the claim writes inside the prefix), with the timestamp
    [Date.now()] in decimal and the token a fresh [uuidv4()]; the name does
    not depend on the directory contents; distinct (timestamp, token) pairs
    give distinct names, and a streaming name never equals an upload name. *)
Theorem canonical_artifact_names :
  (forall (W : World) (s : State) (data : json) (payload : jsstring) (bytes : list N),
      get_prop data (js "audioData") = Some (JStr payload) ->
      payload <> [] ->
      writeFile_error W = None ->
      ffmpeg_outcome W = inr bytes ->
      exists transcription others f,
        st_sent (run (handleAudioChunk data) W s)
        = st_sent s ++ transcription :: others
        /\ get_prop transcription (js "audioFile")
           = Some (JStr (js "audio_" ++ Number_toString (Date_now W) ++ js "_"
                           ++ uuidv4 W ++ js ".mp3"))
        /\ audio (st_fs (run (handleAudioChunk data) W s))
             !! (js "audio_" ++ Number_toString (Date_now W) ++ js "_"
                   ++ uuidv4 W ++ js ".mp3") = Some f
        /\ f_bytes f = bytes)
  /\ (forall (W : World) (s : State) (req : upload_request) (file : upload_file)
             (bytes : list N),
         req_file req = Some file ->
         p_dir (uf_path file) = UploadsDir ->
         ffmpeg_outcome W = inr bytes ->
         exists fields f,
           st_res (run (post_transcribe req) W s)
           = Some (mkresponse 200 [] (BJson fields))
           /\ fields_get (js "audioFile") fields
              = Some (JStr (js "uploaded_" ++ Number_toString (Date_now W) ++ js "_"
                              ++ uuidv4 W ++ js ".mp3"))
           /\ audio (st_fs (run (post_transcribe req) W s))
                !! (js "uploaded_" ++ Number_toString (Date_now W) ++ js "_"
                      ++ uuidv4 W ++ js ".mp3") = Some f
           /\ f_bytes f = bytes)
  /\ (forall (t1 t2 : Z) (u1 u2 : jsstring),
         (t1, u1) <> (t2, u2) ->
         audio_mp3Filename t1 u1 <> audio_mp3Filename t2 u2
         /\ uploaded_mp3Filename t1 u1 <> uploaded_mp3Filename t2 u2)
  /\ (forall (t1 t2 : Z) (u1 u2 : jsstring),
         audio_mp3Filename t1 u1 <> uploaded_mp3Filename t2 u2).
Proof.
  split; [|split; [|split]].
  - intros W s data payload bytes Ha Hp Hw Hf.
    rewrite (handleAudioChunk_converted W s data payload bytes Ha Hp Hw Hf). mproj.
    do 3 eexists. split; [reflexivity|]. split; [reflexivity|].
    change (audio ?fs !! ?n) with (fs_lookup fs (path_join AudioDir n)).
    rewrite cleanup_fs_lookup_other by apply temp_mp3_distinct.
    split; [apply fs_lookup_put_file_eq | reflexivity].
  - intros W s req file bytes Hr Hd Hf.
    rewrite (post_transcribe_converted W s req file bytes Hr Hf). mproj.
    do 2 eexists. split; [reflexivity|]. split; [reflexivity|].
    change (audio ?fs !! ?n) with (fs_lookup fs (path_join AudioDir n)).
    rewrite cleanup_fs_lookup_other by (apply uploaded_temp_distinct; exact Hd).
    split; [apply fs_lookup_put_file_eq | reflexivity].
  - intros t1 t2 u1 u2 Hne. split; intros H.
    + apply audio_mp3Filename_inj in H as [-> ->]. congruence.
    + apply uploaded_mp3Filename_inj in H as [-> ->]. congruence.
  - intros t1 t2 u1 u2. apply audio_uploaded_distinct.
Qed.

Lemma canonical_artifact_names_witness :
  (exists transcription others f,
      st_sent (run (handleAudioChunk sample_chunk) world_ok empty_state)
      = st_sent empty_state ++ transcription :: others
      /\ get_prop transcription (js "audioFile")
         = Some (JStr (js "audio_" ++ Number_toString (Date_now world_ok) ++ js "_"
                         ++ uuidv4 world_ok ++ js ".mp3"))
      /\ audio (st_fs (run (handleAudioChunk sample_chunk) world_ok empty_state))
           !! (js "audio_" ++ Number_toString (Date_now world_ok) ++ js "_"
                 ++ uuidv4 world_ok ++ js ".mp3") = Some f
      /\ f_bytes f = [73; 68; 51])
  /\ (audio_mp3Filename 1 (js "a") <> audio_mp3Filename 2 (js "a")
      /\ uploaded_mp3Filename 1 (js "a") <> uploaded_mp3Filename 2 (js "a")).
Proof.
  split.
  - apply (proj1 canonical_artifact_names world_ok empty_state sample_chunk
             (js "data:audio/wav;base64,UklGRg==") [73; 68; 51]).
    + vm_compute. reflexivity.
    + vm_compute. discriminate.
    + vm_compute. reflexivity.
    + vm_compute. reflexivity.
  - apply (proj1 (proj2 (proj2 canonical_artifact_names)) 1%Z 2%Z (js "a") (js "a")).
    intros H. discriminate H.
Defined.

(** * Further properties of the handlers *)

(** ** Streaming handler: staging failures and what survives a job *)

Lemma handleAudioChunk_invalid_format W s data :
  truthy (get_prop data (js "audioData")) = true ->
  (forall payload, get_prop data (js "audioData") <> Some (JStr payload)) ->
  run (handleAudioChunk data) W s
  = mkState (st_fs s) (st_ops s)
            (st_sent s ++ [error_notification
                             (js "Transcription failed: "
                              ++ js "Invalid audio data format")])
            (st_res s) (st_requests s) (st_timers s).
Proof.
  intros Ht Hns. unfold handleAudioChunk, saveAudioChunk. mstep. rewrite Ht. mstep.
  destruct (get_prop data (js "audioData")) as [[| | |payload| |]|] eqn:E;
    try reflexivity.
  exfalso. exact (Hns payload eq_refl).
Qed.



Lemma handleAudioChunk_fs_cases W s data :
  st_fs (run (handleAudioChunk data) W s) = st_fs s
  \/ (exists payload,
         st_fs (run (handleAudioChunk data) W s) = staged_fs W payload (st_fs s))
  \/ (exists payload bytes,
         st_fs (run (handleAudioChunk data) W s)
         = cleanup_fs W (temp_path W)
             (put_file (audio_mp3_path W) bytes (fs_clock W)
                       (staged_fs W payload (st_fs s)))).
Proof.
  destruct (truthy (get_prop data (js "audioData"))) eqn:Ht.
  - destruct (get_prop data (js "audioData")) as [[| | |payload| |]|] eqn:Ea;
      try (left; rewrite handleAudioChunk_invalid_format;
           [reflexivity | rewrite Ea; exact Ht | rewrite Ea; discriminate]).
    assert (Hp : payload <> []) by (destruct payload; [discriminate Ht | discriminate]).
    destruct (writeFile_error W) as [err|] eqn:Hw.
    + left. rewrite (handleAudioChunk_write_fails W s data payload err Ea Hp Hw).
      reflexivity.
    + destruct (ffmpeg_outcome W) as [err|bytes] eqn:Hf.
      * right; left. exists payload.
        rewrite (handleAudioChunk_conversion_fails W s data payload err Ea Hp Hw Hf).
        reflexivity.
      * right; right. exists payload, bytes.
        rewrite (handleAudioChunk_converted W s data payload bytes Ea Hp Hw Hf).
        reflexivity.
  - left. rewrite (handleAudioChunk_no_audio W s data Ht). reflexivity.
Qed.

Lemma put_file_lookup_is_Some p q bytes now fs :
  is_Some (fs_lookup fs q) -> is_Some (fs_lookup (put_file p bytes now fs) q).
Proof.
  intros Hq. destruct (decide (p = q)) as [-> | Hne].
  - rewrite fs_lookup_put_file_eq. eexists; reflexivity.
  - rewrite fs_lookup_put_file_ne by exact Hne. exact Hq.
Qed.

Lemma uploads_put_audio name bytes now fs :
  uploads (put_file (path_join AudioDir name) bytes now fs) = uploads fs.
Proof. reflexivity. Qed.

Lemma uploads_cleanup_audio W name fs :
  uploads (cleanup_fs W (path_join AudioDir name) fs) = uploads fs.
Proof.
  unfold cleanup_fs.
  destruct (fs_lookup fs (path_join AudioDir name)), (unlink_error W); reflexivity.
Qed.

(** Whatever the message and whatever the collaborators answer, a streaming
    job removes no file other than its own staged [temp_*.wav]: every other
    entry present before the job (earlier converted artifacts in particular)
    is still present after it, and the uploads directory is untouched. *)
Theorem streaming_job_keeps_other_files
        (W : World) (s : State) (data : json) (p : path) :
  p <> temp_path W ->
  is_Some (fs_lookup (st_fs s) p) ->
  is_Some (fs_lookup (st_fs (run (handleAudioChunk data) W s)) p)
  /\ uploads (st_fs (run (handleAudioChunk data) W s)) = uploads (st_fs s).
Proof.
  intros Hne Hp.
  destruct (handleAudioChunk_fs_cases W s data)
    as [-> | [(payload & ->) | (payload & bytes & ->)]].
  - split; [exact Hp | reflexivity].
  - split; [|reflexivity].
    unfold staged_fs. apply put_file_lookup_is_Some. exact Hp.
  - split.
    + rewrite cleanup_fs_lookup_other by congruence.
      unfold staged_fs. do 2 apply put_file_lookup_is_Some. exact Hp.
    + unfold temp_path, audio_mp3_path, staged_fs.
      rewrite uploads_cleanup_audio. reflexivity.
Qed.

Lemma streaming_job_keeps_other_files_witness :
  is_Some (fs_lookup (st_fs (run (handleAudioChunk sample_chunk) world_ok
                                 one_artifact_state))
                     (path_join AudioDir (js "audio_1_a.mp3")))
  /\ uploads (st_fs (run (handleAudioChunk sample_chunk) world_ok one_artifact_state))
     = uploads (st_fs one_artifact_state).
Proof.
  apply (streaming_job_keeps_other_files world_ok one_artifact_state sample_chunk
           (path_join AudioDir (js "audio_1_a.mp3"))).
  - intros H. vm_compute in H. discriminate H.
  - vm_compute. eexists. reflexivity.
Defined.

(** ** Upload handler: answer, clean-up and what survives a request *)

(** [POST /transcribe] always answers, exactly with: 400 when no file was
    uploaded (and then the filesystem is not even consulted), 500 carrying
    the engine's message when the conversion fails, 200 otherwise -- whether
    or not the clean-up of the staged upload succeeds. It never writes to the
    WebSocket. *)
Theorem upload_always_answers (W : World) (s : State) (req : upload_request) :
  (exists r, st_res (run (post_transcribe req) W s) = Some r
             /\ status r = upload_status W req)
  /\ (req_file req = None ->
      st_ops (run (post_transcribe req) W s) = st_ops s
      /\ st_fs (run (post_transcribe req) W s) = st_fs s)
  /\ (forall err, req_file req <> None -> ffmpeg_outcome W = inl err ->
      st_res (run (post_transcribe req) W s) = Some (upload_failure_response err))
  /\ st_sent (run (post_transcribe req) W s) = st_sent s.
Proof.
  unfold upload_status.
  destruct (req_file req) as [file|] eqn:Hr.
  - destruct (ffmpeg_outcome W) as [err|bytes] eqn:Hf.
    + rewrite (post_transcribe_conversion_fails W s req file err Hr Hf). mproj.
      split; [eexists; split; reflexivity|]. split; [discriminate|].
      split; [|reflexivity]. intros err' _ E. injection E as <-. reflexivity.
    + rewrite (post_transcribe_converted W s req file bytes Hr Hf). mproj.
      split; [eexists; split; reflexivity|]. split; [discriminate|].
      split; [|reflexivity]. intros err' _ E. discriminate E.
  - rewrite (post_transcribe_no_file W s req Hr). mproj.
    split; [eexists; split; reflexivity|]. split; [split; reflexivity|].
    split; [|reflexivity]. intros err Hn. congruence.
Qed.

Lemma upload_job_fs_cases W s req :
  st_fs (run (post_transcribe req) W s) = st_fs s
  \/ (exists file,
         req_file req = Some file
         /\ (st_fs (run (post_transcribe req) W s)
             = cleanup_fs W (uf_path file) (st_fs s)
             \/ exists bytes,
                 st_fs (run (post_transcribe req) W s)
                 = cleanup_fs W (uf_path file)
                     (put_file (uploaded_mp3_path W) bytes (fs_clock W) (st_fs s)))).
Proof.
  destruct (req_file req) as [file|] eqn:Hr.
  - right. exists file. split; [reflexivity|].
    destruct (ffmpeg_outcome W) as [err|bytes] eqn:Hf.
    + left. rewrite (post_transcribe_conversion_fails W s req file err Hr Hf).
      reflexivity.
    + right. exists bytes.
      rewrite (post_transcribe_converted W s req file bytes Hr Hf). reflexivity.
  - left. rewrite (post_transcribe_no_file W s req Hr). reflexivity.
Qed.

(** Whatever the request and the collaborators' answers, an upload request
    removes no file other than its own staged upload: every other entry
    present before (in either directory) is still present after. *)
Theorem upload_job_keeps_other_files
        (W : World) (s : State) (req : upload_request) (p : path) :
  (forall file, req_file req = Some file -> p <> uf_path file) ->
  is_Some (fs_lookup (st_fs s) p) ->
  is_Some (fs_lookup (st_fs (run (post_transcribe req) W s)) p).
Proof.
  intros Hne Hp.
  destruct (upload_job_fs_cases W s req)
    as [-> | (file & Hr & [-> | (bytes & ->)])].
  - exact Hp.
  - rewrite cleanup_fs_lookup_other by (specialize (Hne file Hr); congruence).
    exact Hp.
  - rewrite cleanup_fs_lookup_other by (specialize (Hne file Hr); congruence).
    apply put_file_lookup_is_Some. exact Hp.
Qed.

Lemma upload_job_keeps_other_files_witness :
  is_Some (fs_lookup (st_fs (run (post_transcribe (mkrequest (Some sample_upload) None))
                                 world_conversion_fails one_artifact_state))
                     (path_join AudioDir (js "audio_1_a.mp3"))).
Proof.
  apply (upload_job_keeps_other_files world_conversion_fails one_artifact_state
           (mkrequest (Some sample_upload) None)
           (path_join AudioDir (js "audio_1_a.mp3"))).
  - intros file Hf. injection Hf as <-. intros H. vm_compute in H. discriminate H.
  - vm_compute. eexists. reflexivity.
Defined.

(** When the staged upload is in the uploads directory and [unlink] works,
    the request ends with the staged upload gone, on the success branch and
    on the conversion-failure branch alike; the [unlink] is issued once, as
    the last filesystem access of the request. *)
Theorem upload_releases_staged_upload_once
        (W : World) (s : State) (req : upload_request) (upl : upload_file)
        (f : file) :
  req_file req = Some upl ->
  p_dir (uf_path upl) = UploadsDir ->
  fs_lookup (st_fs s) (uf_path upl) = Some f ->
  unlink_error W = None ->
  fs_lookup (st_fs (run (post_transcribe req) W s)) (uf_path upl) = None
  /\ exists before,
      st_ops (run (post_transcribe req) W s)
      = st_ops s ++ before ++ [OpExists (uf_path upl); OpUnlink (uf_path upl)]
      /\ forallb (fun o => negb (is_unlink o)) before = true.
Proof.
  intros Hr Hd Hf Hu.
  destruct (ffmpeg_outcome W) as [err|bytes] eqn:Hc.
  - rewrite (post_transcribe_conversion_fails W s req upl err Hr Hc). mproj.
    split; [apply cleanup_fs_released; exact Hu|].
    exists [OpRead (uf_path upl)]. unfold cleanup_ops. rewrite Hf.
    split; reflexivity.
  - rewrite (post_transcribe_converted W s req upl bytes Hr Hc). mproj.
    split; [apply cleanup_fs_released; exact Hu|].
    exists [ OpRead (uf_path upl); OpWrite (uploaded_mp3_path W);
             OpExists (uploaded_mp3_path W); OpStat (uploaded_mp3_path W) ].
    unfold cleanup_ops.
    rewrite fs_lookup_put_file_ne, Hf
      by (apply not_eq_sym, uploaded_temp_distinct; exact Hd).
    split; reflexivity.
Qed.

Lemma upload_releases_staged_upload_once_witness :
  fs_lookup (st_fs (run (post_transcribe (mkrequest (Some sample_upload) None))
                        world_conversion_fails uploaded_state))
            (uf_path sample_upload) = None
  /\ exists before,
      st_ops (run (post_transcribe (mkrequest (Some sample_upload) None))
                  world_conversion_fails uploaded_state)
      = st_ops uploaded_state
        ++ before ++ [OpExists (uf_path sample_upload);
                      OpUnlink (uf_path sample_upload)]
      /\ forallb (fun o => negb (is_unlink o)) before = true.
Proof.
  apply (upload_releases_staged_upload_once world_conversion_fails uploaded_state
           (mkrequest (Some sample_upload) None) sample_upload
           (mkfile [82; 73; 70; 70] 5 5)).
  - reflexivity.
  - reflexivity.
  - vm_compute. reflexivity.
  - reflexivity.
Defined.

(** ** Streaming dispatcher: every message is answered *)

Lemma handleAudioChunk_returns W s data :
  exists s', handleAudioChunk data W s = (inr tt, s').
Proof.
  unfold handleAudioChunk, try_catch.
  match goal with
  | |- context [match ?m W s with _ => _ end] => destruct (m W s) as [[e|[]] s1]
  end; eexists; reflexivity.
Qed.

Lemma handleTranslation_returns W s data :
  exists s', handleTranslation data W s = (inr tt, s').
Proof. rewrite handleTranslation_run. eexists; reflexivity. Qed.

Lemma mapM_model_summary_state W s models :
  exists r, mapM model_summary models W s = (r, s).
Proof.
  induction models as [|model models [r IH]]; [eexists; reflexivity|].
  cbn [mapM]. unfold bind. 
  destruct model; cbn [model_summary]; unfold bind, ask, throw, ret;
    try (eexists; reflexivity);
    rewrite IH; destruct r; eexists; reflexivity.
Qed.

Lemma getAvailableModels_run W s :
  exists reply,
    getAvailableModels W s
    = (inr tt,
       mkState (st_fs s) (st_ops s) (st_sent s ++ [reply]) (st_res s)
               (st_requests s ++ [GetTags]) (st_timers s)).
Proof.
  unfold getAvailableModels. mstep.
  destruct (axios_get_outcome W) as [err|v]; [eexists; reflexivity|].
  destruct (js_or v (Some (JArr []))) as [[| | | |models|]|];
    try (eexists; reflexivity).
  destruct (mapM_model_summary_state W
              (mkState (st_fs s) (st_ops s) (st_sent s) (st_res s)
                       (st_requests s ++ [GetTags]) (st_timers s)) models)
    as [r Hr].
  rewrite Hr. destruct r; eexists; reflexivity.
Qed.

Lemma handleAudioChunk_sends W s data :
  exists msgs,
    msgs <> []
    /\ st_sent (run (handleAudioChunk data) W s) = st_sent s ++ msgs
    /\ st_res (run (handleAudioChunk data) W s) = st_res s.
Proof.
  destruct (truthy (get_prop data (js "audioData"))) eqn:Ht.
  - destruct (get_prop data (js "audioData")) as [[| | |payload| |]|] eqn:Ea;
      try (rewrite handleAudioChunk_invalid_format;
           [eexists; split; [|split; reflexivity]; discriminate
           | rewrite Ea; exact Ht | rewrite Ea; discriminate]).
    assert (Hp : payload <> []) by (destruct payload; [discriminate Ht | discriminate]).
    destruct (writeFile_error W) as [err|] eqn:Hw.
    + rewrite (handleAudioChunk_write_fails W s data payload err Ea Hp Hw).
      eexists; split; [|split; reflexivity]; discriminate.
    + destruct (ffmpeg_outcome W) as [err|bytes] eqn:Hf.
      * rewrite (handleAudioChunk_conversion_fails W s data payload err Ea Hp Hw Hf).
        eexists; split; [|split; reflexivity]; discriminate.
      * rewrite (handleAudioChunk_converted W s data payload bytes Ea Hp Hw Hf).
        eexists; split; [|split; reflexivity]; discriminate.
  - rewrite (handleAudioChunk_no_audio W s data Ht).
    eexists; split; [|split; reflexivity]; discriminate.
Qed.

(** No inbound streaming message is dropped silently: whatever was received
    (unparsable text, any JSON value, any [type]) and whatever the
    collaborators answer, at least one message is sent back on the connection;
    the HTTP side is not touched. *)
Theorem every_message_is_answered (W : World) (s : State) (parsed : list N + json) :
  exists msgs,
    msgs <> []
    /\ st_sent (run (on_message parsed) W s) = st_sent s ++ msgs
    /\ st_res (run (on_message parsed) W s) = st_res s.
Proof.
  assert (Hone : forall props,
             exists msgs, msgs <> []
               /\ st_sent (mkState (st_fs s) (st_ops s)
                                   (st_sent s ++ [JObj (mkobj props)]) (st_res s)
                                   (st_requests s) (st_timers s))
                  = st_sent s ++ msgs
               /\ st_res s = st_res s)
    by (intros props; eexists; split; [|split; reflexivity]; discriminate).
  destruct parsed as [err|data]; [unfold on_message; mstep; apply Hone|].
  destruct data as [| b | q | str | items | fields];
    try (unfold on_message; mstep; apply Hone).
  unfold on_message, run, try_catch, bind, ret.
  destruct (get_prop (JObj fields) (js "type")) as [[| | |t| |]|];
    try (mstep; apply Hone).
  destruct (jsstring_eqb t (js "audio-chunk")).
  { destruct (handleAudioChunk_returns W s (JObj fields)) as [s' Hs'].
    pose proof (handleAudioChunk_sends W s (JObj fields)) as Hsend.
    unfold run in Hsend. rewrite Hs' in *. exact Hsend. }
  destruct (jsstring_eqb t (js "translate")).
  { rewrite handleTranslation_run. cbn [snd st_sent st_res].
    eexists; split; [|split; reflexivity]; discriminate. }
  destruct (jsstring_eqb t (js "get-models")).
  { destruct (getAvailableModels_run W s) as [reply ->]. cbn [snd st_sent st_res].
    eexists; split; [|split; reflexivity]; discriminate. }
  mstep. apply Hone.
Qed.

(** ** Translation requests, over the WebSocket and over REST *)





(** ** Model listing *)

Lemma mapM_model_summary_ok W s models :
  Forall (fun model => model <> JNull) models ->
  mapM model_summary models W s = (inr (map summary_of models), s).
Proof.
  induction 1 as [|model models Hm _ IH]; [reflexivity|].
  cbn [mapM map]. unfold bind at 1.
  destruct model; try congruence; cbn [model_summary]; unfold ret at 1;
    unfold bind; rewrite IH; reflexivity.
Qed.

Lemma summary_of_projects model k :
  get_prop (summary_of model) k
  = if is_summary_key k then get_prop model k else None.
Proof.
  unfold summary_of, is_summary_key, jsstring_eqb.
  destruct (decide (k = js "name")) as [-> | H1];
    [destruct (get_prop model (js "name")), (get_prop model (js "size")),
       (get_prop model (js "modified_at")); reflexivity|].
  destruct (decide (k = js "size")) as [-> | H2];
    [destruct (get_prop model (js "name")), (get_prop model (js "size")),
       (get_prop model (js "modified_at")); reflexivity|].
  destruct (decide (k = js "modified_at")) as [-> | H3];
    [destruct (get_prop model (js "name")), (get_prop model (js "size")),
       (get_prop model (js "modified_at")); reflexivity|].
  rewrite !bool_decide_eq_false_2 by assumption.
  destruct (get_prop model (js "name")), (get_prop model (js "size")),
    (get_prop model (js "modified_at"));
    cbn [mkobj get_prop fields_get]; unfold jsstring_eqb;
    rewrite ?bool_decide_eq_false_2 by assumption; reflexivity.
Qed.

(** When Ollama lists its models, the WebSocket reply and [GET /models] carry
    the same list: one summary per model, in order, each keeping exactly the
    model's [name], [size] and [modified_at] (whichever are present) and
    dropping every other property. *)
Theorem models_are_summarised (W : World) (s : State) (models : list json) :
  axios_get_outcome W = inr (Some (JArr models)) ->
  Forall (fun model => model <> JNull) models ->
  st_sent (run getAvailableModels W s)
  = st_sent s ++ [JObj [ (js "type", JStr (js "models"));
                         (js "models", JArr (map summary_of models)) ]]
  /\ st_res (run get_models W s)
     = Some (mkresponse 200 []
               (BJson [ (js "models", JArr (map summary_of models)) ]))
  /\ (forall model k,
         get_prop (summary_of model) k
         = if is_summary_key k then get_prop model k else None).
Proof.
  intros Hx Hm. split; [|split].
  - unfold getAvailableModels. mstep. rewrite Hx. cbn [js_or truthy].
    rewrite mapM_model_summary_ok by exact Hm. reflexivity.
  - unfold get_models. mstep. rewrite Hx. cbn [js_or truthy].
    rewrite mapM_model_summary_ok by exact Hm. reflexivity.
  - apply summary_of_projects.
Qed.

Lemma models_are_summarised_witness :
  st_sent (run getAvailableModels world_one_model empty_state)
  = st_sent empty_state
    ++ [JObj [ (js "type", JStr (js "models"));
               (js "models",
                JArr (map summary_of
                          [ JObj [ (js "name", JStr (js "llama3.2"));
                                   (js "digest", JStr (js "a80c4f17acd5"));
                                   (js "size", JNum (inject_Z 2019393189)) ] ])) ]]
  /\ st_res (run get_models world_one_model empty_state)
     = Some (mkresponse 200 []
               (BJson [ (js "models",
                         JArr (map summary_of
                                   [ JObj [ (js "name", JStr (js "llama3.2"));
                                            (js "digest", JStr (js "a80c4f17acd5"));
                                            (js "size", JNum (inject_Z 2019393189)) ] ])) ]))
  /\ (forall model k,
         get_prop (summary_of model) k
         = if is_summary_key k then get_prop model k else None).
Proof.
  apply (models_are_summarised world_one_model empty_state
           [ JObj [ (js "name", JStr (js "llama3.2"));
                    (js "digest", JStr (js "a80c4f17acd5"));
                    (js "size", JNum (inject_Z 2019393189)) ] ]).
  - reflexivity.
  - constructor; [discriminate | constructor].
Defined.

(** When Ollama cannot be reached the WebSocket client gets an [error]
    "Failed to fetch models: ..." and [GET /models] answers 500 with the same
    text; when the reply has no (or a falsy) [models] field both report an
    empty list. Either way Ollama's [/api/tags] is asked exactly once. *)
Theorem models_unavailable (W : World) (s : State) :
  (forall err, axios_get_outcome W = inl err ->
     st_sent (run getAvailableModels W s)
     = st_sent s ++ [error_notification (js "Failed to fetch models: " ++ err)]
     /\ st_res (run get_models W s)
        = Some (mkresponse 500 []
                  (BJson [ (js "error", JStr (js "Failed to fetch models: " ++ err)) ])))
  /\ (forall v, axios_get_outcome W = inr v -> truthy v = false ->
      st_sent (run getAvailableModels W s)
      = st_sent s ++ [JObj [ (js "type", JStr (js "models")); (js "models", JArr []) ]]
      /\ st_res (run get_models W s)
         = Some (mkresponse 200 [] (BJson [ (js "models", JArr []) ])))
  /\ st_requests (run getAvailableModels W s) = st_requests s ++ [GetTags]
  /\ st_requests (run get_models W s) = st_requests s ++ [GetTags].
Proof.
  split; [|split; [|split]].
  - intros err Hx. unfold getAvailableModels, get_models. mstep. rewrite Hx.
    split; reflexivity.
  - intros v Hx Hv. unfold getAvailableModels, get_models, js_or. mstep.
    rewrite Hx, Hv. split; reflexivity.
  - destruct (getAvailableModels_run W s) as [reply Hr]. unfold run. rewrite Hr.
    reflexivity.
  - unfold get_models. mstep.
    destruct (axios_get_outcome W) as [err|v]; [reflexivity|].
    destruct (js_or v (Some (JArr []))) as [[| | | |models|]|]; try reflexivity.
    destruct (mapM_model_summary_state W
                (mkState (st_fs s) (st_ops s) (st_sent s) (st_res s)
                         (st_requests s ++ [GetTags]) (st_timers s)) models)
      as [r Hr].
    rewrite Hr. destruct r; reflexivity.
Qed.

Lemma models_unavailable_witness :
  st_sent (run getAvailableModels
               (mkWorld 0 [] [] 0 (fun x => x) 0 None None (inl []) (inl [])
                        (inl (js "connect ECONNREFUSED")) [] [])
               empty_state)
  = st_sent empty_state
    ++ [error_notification (js "Failed to fetch models: " ++ js "connect ECONNREFUSED")]
  /\ st_res (run get_models
                 (mkWorld 0 [] [] 0 (fun x => x) 0 None None (inl []) (inl [])
                          (inl (js "connect ECONNREFUSED")) [] [])
                 empty_state)
     = Some (mkresponse 500 []
               (BJson [ (js "error",
                         JStr (js "Failed to fetch models: "
                               ++ js "connect ECONNREFUSED")) ])).
Proof.
  apply (models_unavailable
           (mkWorld 0 [] [] 0 (fun x => x) 0 None None (inl []) (inl [])
                    (inl (js "connect ECONNREFUSED")) [] [])
           empty_state).
  reflexivity.
Defined.

(** ** A streaming job whose stages succeed *)



(** After a streaming job whose stages all succeed (and whose [unlink]
    works), the persistent directory differs from what it was in exactly two
    places: the staged [temp_*.wav] is absent and the converted
    [audio_*.mp3] holds the encoder's bytes; every other path is as before. *)
Theorem streaming_success_filesystem
        (W : World) (s : State) (data : json) (payload : jsstring) (bytes : list N) :
  get_prop data (js "audioData") = Some (JStr payload) ->
  payload <> [] ->
  writeFile_error W = None ->
  ffmpeg_outcome W = inr bytes ->
  unlink_error W = None ->
  fs_lookup (st_fs (run (handleAudioChunk data) W s)) (temp_path W) = None
  /\ (exists f,
         fs_lookup (st_fs (run (handleAudioChunk data) W s)) (audio_mp3_path W) = Some f
         /\ f_bytes f = bytes /\ f_mtime f = fs_clock W)
  /\ (forall p, p <> temp_path W -> p <> audio_mp3_path W ->
      fs_lookup (st_fs (run (handleAudioChunk data) W s)) p = fs_lookup (st_fs s) p).
Proof.
  intros Ha Hp Hw Hf Hu.
  rewrite (handleAudioChunk_converted W s data payload bytes Ha Hp Hw Hf). mproj.
  split; [apply cleanup_fs_released; exact Hu|]. split.
  - rewrite cleanup_fs_lookup_other by apply temp_mp3_distinct.
    rewrite fs_lookup_put_file_eq. eexists. repeat split.
  - intros p Hpt Hpm.
    rewrite cleanup_fs_lookup_other by congruence.
    rewrite fs_lookup_put_file_ne by congruence.
    unfold staged_fs. rewrite fs_lookup_put_file_ne by congruence. reflexivity.
Qed.

Lemma streaming_success_filesystem_witness :
  fs_lookup (st_fs (run (handleAudioChunk sample_chunk) world_ok one_artifact_state))
            (temp_path world_ok) = None
  /\ (exists f,
         fs_lookup (st_fs (run (handleAudioChunk sample_chunk) world_ok
                               one_artifact_state))
                   (audio_mp3_path world_ok) = Some f
         /\ f_bytes f = [73; 68; 51] /\ f_mtime f = fs_clock world_ok)
  /\ (forall p, p <> temp_path world_ok -> p <> audio_mp3_path world_ok ->
      fs_lookup (st_fs (run (handleAudioChunk sample_chunk) world_ok
                            one_artifact_state)) p
      = fs_lookup (st_fs one_artifact_state) p).
Proof.
  apply (streaming_success_filesystem world_ok one_artifact_state sample_chunk
           (js "data:audio/wav;base64,UklGRg==") [73; 68; 51]).
  - vm_compute. reflexivity.
  - vm_compute. discriminate.
  - reflexivity.
  - reflexivity.
  - reflexivity.
Defined.



(** ** The data-URL header removed before decoding *)

Lemma strip_prefix_app p t : strip_prefix p (p ++ t) = Some t.
Proof.
  induction p as [|c p IH]; [destruct t; reflexivity|].
  cbn [app strip_prefix]. rewrite N.eqb_refl. exact IH.
Qed.

Lemma strip_prefix_Some p : forall s t, strip_prefix p s = Some t -> s = p ++ t.
Proof.
  induction p as [|c p IH]; intros s t H.
  - destruct s; injection H as <-; reflexivity.
  - destruct s as [|d s]; [discriminate H|]. cbn [strip_prefix] in H.
    destruct (c =? d) eqn:E; [|discriminate H].
    apply N.eqb_eq in E. subst d. cbn [app]. f_equal. apply IH. exact H.
Qed.

Lemma skip_not_run c m t :
  Forall (fun d => negb (d =? c) = true) m -> skip_not c (m ++ c :: t) = c :: t.
Proof.
  induction 1 as [|d m Hd _ IH]; cbn [app skip_not].
  - rewrite N.eqb_refl. reflexivity.
  - apply negb_true_iff in Hd. rewrite Hd. exact IH.
Qed.

Lemma skip_not_split c s :
  exists m, s = m ++ skip_not c s /\ Forall (fun d => negb (d =? c) = true) m.
Proof.
  induction s as [|d s (m & Hm & Hall)]; [exists []; split; [reflexivity | constructor]|].
  cbn [skip_not]. destruct (d =? c) eqn:E.
  - exists []. split; [reflexivity | constructor].
  - exists (d :: m). split; [cbn [app]; f_equal; exact Hm|].
    constructor; [rewrite E; reflexivity | exact Hall].
Qed.

Lemma data_url_header_shape header :
  lang data_url_re header <->
  exists mime, mime <> []
               /\ Forall (fun d => negb (d =? chr ";") = true) mime
               /\ header = js "data:audio/" ++ mime ++ js ";base64,".
Proof.
  unfold data_url_re, RPlus. split.
  - intros H.
    inversion H as [| |r1 r2 lit rest Hlit Hrest| | | |]; subst.
    inversion Hrest as [| |r1 r2 mime tail Hmime Htail| | | |]; subst.
    inversion Hmime as [| |r1 r2 hd tl Hhd Htl| | | |]; subst.
    apply (lang_lit (js "data:audio/")) in Hlit.
    apply (lang_lit (js ";base64,")) in Htail. subst.
    inversion Hhd; subst.
    exists ([c] ++ tl). split; [discriminate|]. split; [|reflexivity].
    constructor; [assumption | eapply lang_star_class; eauto].
  - intros (mime & Hne & Hall & ->).
    destruct mime as [|c mime]; [congruence|]. inversion Hall; subst.
    constructor; [apply lit_lang|]. constructor; [|apply lit_lang].
    change (c :: mime) with ([c] ++ mime).
    constructor; [constructor; assumption | apply star_class_lang; assumption].
Qed.

(** [saveAudioChunk] decodes what follows the data-URL header: when the
    payload starts with a match of [/^data:audio\/[^;]+;base64,/] exactly
    that match is removed, and when no prefix of the payload matches, the
    payload is decoded as it is. *)
Theorem strip_data_url_removes_header (audioData : jsstring) :
  (forall header rest,
      audioData = header ++ rest -> lang data_url_re header ->
      strip_data_url audioData = rest)
  /\ ((forall header rest, audioData = header ++ rest -> ~ lang data_url_re header) ->
      strip_data_url audioData = audioData).
Proof.
  split.
  - intros header rest -> Hh.
    apply data_url_header_shape in Hh as (mime & Hne & Hall & ->).
    unfold strip_data_url. rewrite <- !app_assoc, strip_prefix_app.
    destruct mime as [|c mime]; [congruence|].
    inversion Hall as [|c' m' Hc Hm]; subst.
    cbn [app]. apply negb_true_iff in Hc. rewrite Hc.
    change (c :: mime ++ js ";base64," ++ rest)
      with ((c :: mime) ++ chr ";" :: (js "base64," ++ rest)).
    rewrite skip_not_run by exact Hall.
    change (chr ";" :: js "base64," ++ rest) with (js ";base64," ++ rest).
    apply (f_equal (fun o => match o with Some payload => payload | None => _ end)
                   (strip_prefix_app (js ";base64,") rest)).
  - intros Hno. unfold strip_data_url.
    destruct (strip_prefix (js "data:audio/") audioData) as [r|] eqn:E1;
      [|reflexivity].
    destruct r as [|d r]; [reflexivity|].
    destruct (d =? chr ";") eqn:Ed; [reflexivity|].
    destruct (strip_prefix (js ";base64,") (skip_not (chr ";") (d :: r)))
      as [payload|] eqn:E2; [|reflexivity].
    exfalso.
    apply strip_prefix_Some in E1. apply strip_prefix_Some in E2.
    destruct (skip_not_split (chr ";") (d :: r)) as (mime & Hm & Hall).
    apply (Hno (js "data:audio/" ++ mime ++ js ";base64,") payload).
    + rewrite E1, Hm, E2, <- !app_assoc. reflexivity.
    + apply data_url_header_shape. exists mime. split; [|split; [exact Hall | reflexivity]].
      intros ->. cbn [app] in Hm. rewrite E2 in Hm. injection Hm as Hd _.
      subst d. discriminate Ed.
Qed.

Lemma strip_data_url_removes_header_witness :
  strip_data_url (js "data:audio/wav;base64,UklGRg==") = js "UklGRg==".
Proof.
  apply (proj1 (strip_data_url_removes_header (js "data:audio/wav;base64,UklGRg=="))
               (js "data:audio/wav;base64,") (js "UklGRg==")).
  - vm_compute. reflexivity.
  - apply rmatch_lang. vm_compute. reflexivity.
Defined.

(** ** Retrieval of what the pipeline stored *)

Lemma mp3_name_valid (prefix : jsstring) timestamp uniqueId :
  prefix <> [] ->
  Forall (fun c => filename_char c = true) prefix ->
  Forall (fun c => filename_char c = true) uniqueId ->
  valid_audio_filename
    (prefix ++ Number_toString timestamp ++ js "_" ++ uniqueId ++ js ".mp3") = true.
Proof.
  intros Hne Hp Hu. apply valid_audio_filename_shape.
  exists (prefix ++ Number_toString timestamp ++ js "_" ++ uniqueId), (js "mp3").
  split; [|split; [|split]].
  - change (js ".mp3") with (js "." ++ js "mp3").
    rewrite <- !app_assoc. reflexivity.
  - destruct prefix; [congruence | discriminate].
  - repeat (apply Forall_app; split); try exact Hu; try exact Hp;
      try apply Number_toString_filename_chars; repeat constructor.
  - left. reflexivity.
Qed.

Lemma mp3_name_listed (stem : jsstring) : listed (stem ++ js ".mp3") = true.
Proof. unfold listed. rewrite (endsWith_app _ (js ".mp3")). reflexivity. Qed.

Lemma audio_mp3Filename_exposable timestamp uniqueId :
  Forall (fun c => filename_char c = true) uniqueId ->
  valid_audio_filename (audio_mp3Filename timestamp uniqueId) = true
  /\ listed (audio_mp3Filename timestamp uniqueId) = true.
Proof.
  intros Hu. split.
  - apply (mp3_name_valid (js "audio_")); [discriminate | repeat constructor | exact Hu].
  - unfold audio_mp3Filename. rewrite !app_assoc. apply mp3_name_listed.
Qed.

Lemma uploaded_mp3Filename_exposable timestamp uniqueId :
  Forall (fun c => filename_char c = true) uniqueId ->
  valid_audio_filename (uploaded_mp3Filename timestamp uniqueId) = true
  /\ listed (uploaded_mp3Filename timestamp uniqueId) = true.
Proof.
  intros Hu. split.
  - apply (mp3_name_valid (js "uploaded_")); [discriminate | repeat constructor | exact Hu].
  - unfold uploaded_mp3Filename. rewrite !app_assoc. apply mp3_name_listed.
Qed.

(** Round trip of the converted artifact. After a job whose conversion
    succeeded -- streaming or upload -- the [audioFile] name it announced
    passes the download filter (the uuid being made of hexadecimal digits and
    hyphens), [GET /audio/<audioFile>] serves exactly the encoder's bytes and
    [GET /audio] lists the artifact. *)
Theorem converted_artifact_can_be_retrieved (W : World) (s : State) (bytes : list N) :
  ffmpeg_outcome W = inr bytes ->
  Forall (fun c => filename_char c = true) (uuidv4 W) ->
  (forall data payload,
      get_prop data (js "audioData") = Some (JStr payload) ->
      payload <> [] ->
      writeFile_error W = None ->
      exposed (audio_mp3Filename (Date_now W) (uuidv4 W)) bytes
              (run (handleAudioChunk data) W s))
  /\ (forall req upl,
         req_file req = Some upl ->
         p_dir (uf_path upl) = UploadsDir ->
         exposed (uploaded_mp3Filename (Date_now W) (uuidv4 W)) bytes
                 (run (post_transcribe req) W s)).
Proof.
  intros Hf Hu. split.
  - intros data payload Ha Hp Hw.
    destruct (audio_mp3Filename_exposable (Date_now W) (uuidv4 W) Hu) as [Hv Hl].
    rewrite (handleAudioChunk_converted W s data payload bytes Ha Hp Hw Hf).
    eapply (exposed_intro _ (mkfile bytes _ _)); [|exact Hv | exact Hl].
    mproj. change (audio ?fs !! ?n) with (fs_lookup fs (path_join AudioDir n)).
    rewrite cleanup_fs_lookup_other by apply temp_mp3_distinct.
    apply fs_lookup_put_file_eq.
  - intros req upl Hr Hd.
    destruct (uploaded_mp3Filename_exposable (Date_now W) (uuidv4 W) Hu) as [Hv Hl].
    rewrite (post_transcribe_converted W s req upl bytes Hr Hf).
    eapply (exposed_intro _ (mkfile bytes _ _)); [|exact Hv | exact Hl].
    mproj. change (audio ?fs !! ?n) with (fs_lookup fs (path_join AudioDir n)).
    rewrite cleanup_fs_lookup_other by (apply uploaded_temp_distinct; exact Hd).
    apply fs_lookup_put_file_eq.
Qed.

Lemma converted_artifact_can_be_retrieved_witness :
  exposed (uploaded_mp3Filename (Date_now world_ok) (uuidv4 world_ok)) [73; 68; 51]
          (run (post_transcribe (mkrequest (Some sample_upload) None))
               world_ok uploaded_state).
Proof.
  assert (Hu : Forall (fun c => filename_char c = true) (uuidv4 world_ok))
    by (apply (bool_decide_unpack _); vm_compute; exact I).
  exact (proj2 (converted_artifact_can_be_retrieved world_ok uploaded_state
                  [73; 68; 51] eq_refl Hu)
               (mkrequest (Some sample_upload) None) sample_upload eq_refl eq_refl).
Defined.

Lemma get_audio_list_fs W s : st_fs (run get_audio_list W s) = st_fs s.
Proof.
  unfold get_audio_list. mstep. fs_unfold. rewrite filter_listed_fst.
  rewrite mapM_stat_entry.
  - reflexivity.
  - intros [n f] Hin. mproj. cbn [fst snd].
    apply list_elem_of_In, List.filter_In in Hin. destruct Hin as [Hin _].
    apply elem_of_map_to_list, list_elem_of_In. exact Hin.
Qed.

Lemma get_audio_file_fs W s filename :
  st_fs (run (get_audio_file filename) W s) = st_fs s.
Proof.
  unfold get_audio_file. mstep.
  destruct (valid_audio_filename filename); [|reflexivity]. mproj.
  unfold fs_lookup. mproj.
  destruct (dir_of (st_fs s) AudioDir !! filename) as [f|] eqn:E; mproj;
    rewrite ?E; reflexivity.
Qed.

(** The two retrieval endpoints agree and are read-only. An entry that
    [GET /audio] lists is served by [GET /audio/<name>], with as many bytes as
    the listing announced, exactly when its name matches the download
    pattern; a listed entry whose name does not match is refused (400).
    Neither endpoint changes the filesystem. *)
Theorem listing_and_download_agree
        (W W' : World) (s : State) (files : list entry) (e : entry) :
  st_res (run get_audio_list W s) = Some (mkresponse 200 [] (BFiles files)) ->
  e ∈ files ->
  (valid_audio_filename (e_filename e) = true ->
   exists f, st_res (run (get_audio_file (e_filename e)) W' s)
             = Some (download_response (e_filename e) f)
             /\ N.of_nat (length (f_bytes f)) = e_size e)
  /\ (valid_audio_filename (e_filename e) = false ->
      st_res (run (get_audio_file (e_filename e)) W' s)
      = Some invalid_filename_response)
  /\ st_fs (run get_audio_list W s) = st_fs s
  /\ st_fs (run (get_audio_file (e_filename e)) W' s) = st_fs s.
Proof.
  intros Hres He. rewrite get_audio_list_run in Hres. injection Hres as <-.
  rewrite Array_sort_perm in He. apply list_elem_of_fmap in He as ([n f] & -> & Hin).
  apply list_elem_of_In, List.filter_In in Hin. destruct Hin as [Hin _].
  apply list_elem_of_In, elem_of_map_to_list in Hin. cbn [entry_of e_filename fst snd e_size].
  split; [|split; [|split]].
  - intros Hv. exists f. rewrite get_audio_file_valid, Hin by exact Hv.
    split; reflexivity.
  - intros Hv. rewrite get_audio_file_invalid by exact Hv. reflexivity.
  - apply get_audio_list_fs.
  - apply get_audio_file_fs.
Qed.

Lemma listing_and_download_agree_witness :
  (valid_audio_filename (e_filename (mkentry (js "audio_1_a.mp3") 3 10 10)) = true ->
   exists f, st_res (run (get_audio_file
                            (e_filename (mkentry (js "audio_1_a.mp3") 3 10 10)))
                         world_ok mixed_state)
             = Some (download_response
                       (e_filename (mkentry (js "audio_1_a.mp3") 3 10 10)) f)
             /\ N.of_nat (length (f_bytes f))
                = e_size (mkentry (js "audio_1_a.mp3") 3 10 10))
  /\ (valid_audio_filename (e_filename (mkentry (js "audio_1_a.mp3") 3 10 10)) = false ->
      st_res (run (get_audio_file
                     (e_filename (mkentry (js "audio_1_a.mp3") 3 10 10)))
                  world_ok mixed_state)
      = Some invalid_filename_response)
  /\ st_fs (run get_audio_list world_ok mixed_state) = st_fs mixed_state
  /\ st_fs (run (get_audio_file (e_filename (mkentry (js "audio_1_a.mp3") 3 10 10)))
                world_ok mixed_state)
     = st_fs mixed_state.
Proof.
  apply (listing_and_download_agree world_ok world_ok mixed_state
           [ mkentry (js "temp_2_b.wav") 4 20 20; mkentry (js "audio_1_a.mp3") 3 10 10 ]
           (mkentry (js "audio_1_a.mp3") 3 10 10)).
  - vm_compute. reflexivity.
  - right. left.
Defined.

(** ** The browser client against the server *)

Lemma on_message_audio_chunk W s data :
  get_prop data (js "type") = Some (JStr (js "audio-chunk")) ->
  run (on_message (inr data)) W s = run (handleAudioChunk data) W s.
Proof.
  intros Hty. unfold on_message, run, try_catch, bind, ret.
  destruct data as [| b | q | str | items | fields]; try discriminate Hty.
  rewrite Hty.
  replace (jsstring_eqb (js "audio-chunk") (js "audio-chunk")) with true
    by (vm_compute; reflexivity).
  destruct (handleAudioChunk_returns W s (JObj fields)) as [s' ->]. reflexivity.
Qed.

Lemma on_message_translate W s data :
  get_prop data (js "type") = Some (JStr (js "translate")) ->
  run (on_message (inr data)) W s = run (handleTranslation data) W s.
Proof.
  intros Hty. unfold on_message, run, try_catch, bind, ret.
  destruct data as [| b | q | str | items | fields]; try discriminate Hty.
  rewrite Hty.
  replace (jsstring_eqb (js "translate") (js "audio-chunk")) with false
    by (vm_compute; reflexivity).
  replace (jsstring_eqb (js "translate") (js "translate")) with true
    by (vm_compute; reflexivity).
  rewrite handleTranslation_run. reflexivity.
Qed.

Lemma replies_of_sent W s message msgs :
  st_sent (run (on_message (inr message)) W s) = st_sent s ++ msgs ->
  replies W s message = msgs.
Proof. intros H. unfold replies. rewrite H. apply drop_app_length. Qed.

(** A recording sent by the browser client is never transcribed: the client
    puts the bytes under the key [data], the server reads [audioData], so the
    server answers "Transcription failed: No audio data provided" without
    staging anything or contacting Ollama, and the client shows that error
    and adds nothing to its histories. *)
Theorem client_recording_is_rejected
        (W : World) (s : State) (audioData : list N)
        (targetLanguage : option jsstring) (now : jsstring) (c : ClientState) :
  replies W s (sendAudioChunk_message audioData targetLanguage)
  = [error_notification (js "Transcription failed: " ++ js "No audio data provided")]
  /\ st_fs (run (on_message (inr (sendAudioChunk_message audioData targetLanguage))) W s)
     = st_fs s
  /\ st_requests (run (on_message (inr (sendAudioChunk_message audioData targetLanguage)))
                      W s)
     = st_requests s
  /\ receive_all now (replies W s (sendAudioChunk_message audioData targetLanguage)) c
     = Some (mkClient (transcriptions c) (translations c)
                      (snackbars c
                       ++ [Snack (js "Error: " ++ js "Transcription failed: "
                                  ++ js "No audio data provided") true])).
Proof.
  assert (Hrun : run (on_message (inr (sendAudioChunk_message audioData targetLanguage)))
                     W s
                 = mkState (st_fs s) (st_ops s)
                     (st_sent s
                      ++ [error_notification (js "Transcription failed: "
                                              ++ js "No audio data provided")])
                     (st_res s) (st_requests s) (st_timers s)).
  { rewrite on_message_audio_chunk by reflexivity.
    apply handleAudioChunk_no_audio. reflexivity. }
  assert (Hrep : replies W s (sendAudioChunk_message audioData targetLanguage)
                 = [error_notification (js "Transcription failed: "
                                        ++ js "No audio data provided")])
    by (apply replies_of_sent; rewrite Hrun; reflexivity).
  rewrite Hrep, Hrun. mproj. split; [reflexivity|]. split; [reflexivity|].
  split; [reflexivity|]. vm_compute. reflexivity.
Qed.

(** A translation requested by the client reaches its history when Ollama
    returns a completion, with the text the client sent and the trimmed
    completion -- but only if both are non-empty: the client drops a
    translation whose original or translated text is empty, without any
    message to the user. The transcription history is never affected. *)
Theorem client_translation_round_trip
        (W : World) (s : State) (text : jsstring)
        (targetLanguage sourceLanguage : option jsstring)
        (completion now : jsstring) (c : ClientState) :
  axios_post_outcome W = inr (Some (JStr completion)) ->
  receive_all now
    (replies W s (requestTranslation_message text targetLanguage sourceLanguage)) c
  = Some
      (if nonempty text && nonempty (trim completion)
       then
         addTranslation
           (JObj (mkobj
              [ (js "originalText", Some (JStr text));
                (js "translatedText", Some (JStr (trim completion)));
                (js "sourceLanguage",
                 js_or (Some (JStr (match sourceLanguage with
                                    | Some l => l
                                    | None => js "auto"
                                    end)))
                       (Some (JStr (js "auto"))));
                (js "targetLanguage",
                 js_or (Some (JStr (match targetLanguage with
                                    | Some l => l
                                    | None => js "en"
                                    end)))
                       (Some (JStr (js "en"))));
                (js "timestamp",
                 js_or (Some (JStr (toISOString W))) (Some (JStr now))) ])) c
       else c).
Proof.
  intros Hx.
  rewrite (replies_of_sent W s _
             [translation_message W
                (requestTranslation_message text targetLanguage sourceLanguage)
                completion]).
  - unfold translation_message, requestTranslation_message.
    cbn [receive_all handleWebSocketMessage get_prop fields_get mkobj default_to].
    destruct text as [|t0 text], (trim completion) as [|c0 tc];
      vm_compute; reflexivity.
  - rewrite on_message_translate by reflexivity.
    unfold run. rewrite handleTranslation_run. mproj.
    unfold translation_notification. rewrite Hx. reflexivity.
Qed.

Lemma client_translation_round_trip_witness :
  receive_all (js "2023-11-14T22:13:21.000Z")
    (replies world_ok empty_state
       (requestTranslation_message (js "Hola") (Some (js "en")) None))
    empty_client
  = Some
      (if nonempty (js "Hola") && nonempty (trim (js " Hello. "))
       then
         addTranslation
           (JObj (mkobj
              [ (js "originalText", Some (JStr (js "Hola")));
                (js "translatedText", Some (JStr (trim (js " Hello. "))));
                (js "sourceLanguage",
                 js_or (Some (JStr (match @None (list N) with
                                    | Some l => l
                                    | None => js "auto"
                                    end)))
                       (Some (JStr (js "auto"))));
                (js "targetLanguage",
                 js_or (Some (JStr (match Some (js "en") with
                                    | Some l => l
                                    | None => js "en"
                                    end)))
                       (Some (JStr (js "en"))));
                (js "timestamp",
                 js_or (Some (JStr (toISOString world_ok)))
                       (Some (JStr (js "2023-11-14T22:13:21.000Z")))) ]))
           empty_client
       else empty_client).
Proof.
  apply (client_translation_round_trip world_ok empty_state (js "Hola")
           (Some (js "en")) None (js " Hello. ") (js "2023-11-14T22:13:21.000Z")
           empty_client).
  reflexivity.
Defined.

(** ** Time displays of the client *)

Lemma Number_toString_of_N n :
  Number_toString (Z.of_N n) = uint_units (N.to_uint n).
Proof. destruct n; reflexivity. Qed.

Lemma units_uint_units d : units_uint (uint_units d) = d.
Proof. induction d; cbn; rewrite ?IHd; reflexivity. Qed.

Lemma of_uint_leading_zeros k s :
  N.of_uint (units_uint (repeat (chr "0") k ++ s)) = N.of_uint (units_uint s).
Proof. induction k as [|k IH]; [reflexivity | exact IH]. Qed.

Lemma read_padded n :
  N.of_uint (units_uint (padStart2 (Number_toString (Z.of_N n)))) = n.
Proof.
  unfold padStart2. rewrite of_uint_leading_zeros, Number_toString_of_N.
  rewrite units_uint_units. apply DecimalN.Unsigned.of_to.
Qed.

Lemma padded_digits n :
  Forall is_digit (padStart2 (Number_toString (Z.of_N n))).
Proof.
  unfold padStart2. apply Forall_app. split.
  - apply Forall_forall. intros c Hc. apply list_elem_of_In, repeat_spec in Hc.
    subst c. unfold is_digit. change (chr "0") with 48. lia.
  - rewrite Number_toString_of_N. apply uint_units_digits.
Qed.

Lemma cut_at_colon (m t : jsstring) :
  Forall is_digit m ->
  take_until (chr ":") (m ++ chr ":" :: t) = m
  /\ skip_not (chr ":") (m ++ chr ":" :: t) = chr ":" :: t.
Proof.
  induction 1 as [|d m Hd _ [IH1 IH2]]; [split; reflexivity|].
  cbn [app take_until skip_not].
  assert (E : (d =? chr ":") = false)
    by (apply N.eqb_neq; unfold is_digit in Hd; change (chr ":") with 58; lia).
  rewrite E, IH1, IH2. split; reflexivity.
Qed.

Lemma padded_length_small n :
  n < 100 -> length (padStart2 (Number_toString (Z.of_N n))) = 2%nat.
Proof.
  intros Hn.
  assert (Hall : forallb (fun k => Nat.eqb (length (padStart2
                    (Number_toString (Z.of_N (N.of_nat k))))) 2) (seq 0 100) = true)
    by (vm_compute; reflexivity).
  rewrite forallb_forall in Hall.
  specialize (Hall (N.to_nat n)). rewrite N2Nat.id in Hall.
  apply Nat.eqb_eq, Hall, in_seq. lia.
Qed.

(** The recording clock shows minutes and seconds as digits around one colon;
    the seconds always take two digits, the minutes two digits below a
    hundred minutes and more beyond (nothing is truncated), and the elapsed
    time can be read back from the display: distinct times never look alike. *)
Theorem recording_clock_round_trip (recordingTime : N) :
  read_clock (getRecordingTimeFormatted recordingTime) = recordingTime
  /\ exists mm ss,
      getRecordingTimeFormatted recordingTime = mm ++ js ":" ++ ss
      /\ Forall is_digit mm /\ Forall is_digit ss
      /\ length ss = 2%nat
      /\ (2 <= length mm)%nat
      /\ (recordingTime < 6000 -> length mm = 2%nat).
Proof.
  unfold getRecordingTimeFormatted, read_clock.
  pose proof (padded_digits (recordingTime / 60)) as Hmm.
  pose proof (padded_digits (recordingTime mod 60)) as Hss.
  change (js ":" ++ ?x) with (chr ":" :: x).
  destruct (cut_at_colon _ (padStart2 (Number_toString
              (Z.of_N (recordingTime mod 60)))) Hmm) as [-> ->].
  split.
  - cbn [tl]. rewrite !read_padded. symmetry. apply N.div_mod. discriminate.
  - do 2 eexists. split; [reflexivity|]. split; [exact Hmm|]. split; [exact Hss|].
    split; [|split].
    + apply padded_length_small.
      apply N.lt_trans with 60; [apply N.mod_lt; discriminate | reflexivity].
    + unfold padStart2. rewrite length_app, repeat_length. lia.
    + intros Hlt. apply padded_length_small.
      apply N.Div0.div_lt_upper_bound. exact Hlt.
Qed.

Lemma recording_clock_round_trip_witness :
  exists mm ss,
    getRecordingTimeFormatted 75 = mm ++ js ":" ++ ss /\ length mm = 2%nat.
Proof.
  destruct (recording_clock_round_trip 75)
    as (_ & mm & ss & E & _ & _ & _ & _ & H).
  exists mm, ss. split; [exact E | apply H; reflexivity].
Defined.

(** The relative-time label never shows a zero or an overflowing count: a
    translation less than a minute old (or stamped in the future) reads
    "hace unos segundos"; otherwise the label is "hace <n> <unit>" with
    [n >= 1], at most 59 for minutes and 23 for hours, and the unit is in the
    singular exactly when [n = 1]. *)
Theorem relative_time_label (now translationTime : Z) :
  ((now - translationTime < 60000)%Z ->
   getRelativeTime now translationTime = js "hace unos segundos")
  /\ ((60000 <= now - translationTime)%Z ->
      exists (n : Z) (unit : jsstring),
        getRelativeTime now translationTime
        = js "hace " ++ Number_toString n ++ unit ++ plural_s n
        /\ (1 <= n)%Z
        /\ (plural_s n = [] <-> n = 1%Z)
        /\ ((unit = js " minuto" /\ (n <= 59)%Z
             /\ n = ((now - translationTime) / 60000)%Z)
            \/ (unit = js " hora" /\ (n <= 23)%Z
                /\ n = ((now - translationTime) / 3600000)%Z)
            \/ (unit = js " día" /\ n = ((now - translationTime) / 86400000)%Z))).
Proof.
  unfold getRelativeTime.
  assert (Hpl : forall n, (1 <= n)%Z -> plural_s n = [] <-> n = 1%Z).
  { intros n Hn. unfold plural_s. destruct (Z.ltb_spec 1 n); split; intros H1;
      try discriminate H1; try reflexivity; lia. }
  split.
  - intros Hlt.
    destruct (Z.ltb_spec ((now - translationTime) / 1000) 60) as [_|Hge];
      [reflexivity|].
    exfalso. Z.to_euclidean_division_equations. lia.
  - intros Hge.
    destruct (Z.ltb_spec ((now - translationTime) / 1000) 60) as [Hlt|H60].
    { exfalso. Z.to_euclidean_division_equations. lia. }
    destruct (Z.ltb_spec ((now - translationTime) / 1000) 3600) as [H1|H1].
    { exists ((now - translationTime) / 1000 / 60)%Z, (js " minuto").
      assert (Hn : (1 <= (now - translationTime) / 1000 / 60 <= 59)%Z)
        by (Z.to_euclidean_division_equations; lia).
      split; [reflexivity|]. split; [lia|]. split; [apply Hpl; lia|].
      left. split; [reflexivity|]. split; [lia|].
      Z.to_euclidean_division_equations. lia. }
    destruct (Z.ltb_spec ((now - translationTime) / 1000) 86400) as [H2|H2].
    { exists ((now - translationTime) / 1000 / 3600)%Z, (js " hora").
      assert (Hn : (1 <= (now - translationTime) / 1000 / 3600 <= 23)%Z)
        by (Z.to_euclidean_division_equations; lia).
      split; [reflexivity|]. split; [lia|]. split; [apply Hpl; lia|].
      right; left. split; [reflexivity|]. split; [lia|].
      Z.to_euclidean_division_equations. lia. }
    exists ((now - translationTime) / 1000 / 86400)%Z, (js " día").
    assert (Hn : (1 <= (now - translationTime) / 1000 / 86400)%Z)
      by (Z.to_euclidean_division_equations; lia).
    split; [reflexivity|]. split; [lia|]. split; [apply Hpl; lia|].
    right; right. split; [reflexivity|].
    Z.to_euclidean_division_equations. lia.
Qed.

Lemma relative_time_label_witness :
  getRelativeTime 1700000030000 1700000000000 = js "hace unos segundos".
Proof.
  apply (proj1 (relative_time_label 1700000030000 1700000000000)). reflexivity.
Defined.

(** ** Clean-up failures and the placeholder's delay *)



(** The placeholder's pretended processing time is 10 ms per KB of the
    artifact (its size rounded to the nearest KB, halves up), never more than
    two seconds: the cap is reached from 204288 bytes on, and an artifact
    under 512 bytes is "transcribed" without waiting. *)
Theorem placeholder_delay_is_capped
        (W : World) (s : State) (p : path) (f : file) :
  fs_lookup (st_fs s) p = Some f ->
  exists kb delay,
    st_timers (snd (transcribeAudio p W s)) = st_timers s ++ [delay]
    /\ 1024 * kb <= N.of_nat (length (f_bytes f)) + 512 < 1024 * kb + 1024
    /\ delay <= 2000
    /\ (N.of_nat (length (f_bytes f)) < 204288 -> delay = 10 * kb)
    /\ (204288 <= N.of_nat (length (f_bytes f)) -> delay = 2000)
    /\ (N.of_nat (length (f_bytes f)) < 512 -> delay = 0).
Proof.
  intros Hf. rewrite (transcribeAudio_found W s p f Hf). mproj.
  exists (fileSizeKB_of (N.of_nat (length (f_bytes f)))),
         (processingTime_of (fileSizeKB_of (N.of_nat (length (f_bytes f))))).
  split; [reflexivity|].
  unfold processingTime_of, fileSizeKB_of.
  set (size := N.of_nat (length (f_bytes f))).
  pose proof (N.div_mod (size + 512) 1024 ltac:(discriminate)) as Hdm.
  pose proof (N.mod_lt (size + 512) 1024 ltac:(discriminate)) as Hml.
  set (kb := (size + 512) / 1024) in *.
  set (r := (size + 512) mod 1024) in *.
  pose proof (N.min_spec 2000 (kb * 10)) as Hmin.
  repeat split; lia.
Qed.

Lemma placeholder_delay_is_capped_witness :
  exists kb delay,
    st_timers (snd (transcribeAudio (path_join AudioDir (js "audio_1_a.mp3"))
                                    world_ok one_artifact_state))
    = st_timers one_artifact_state ++ [delay]
    /\ 1024 * kb <= N.of_nat (length (f_bytes (mkfile [73; 68; 51] 10 10))) + 512
       < 1024 * kb + 1024
    /\ delay <= 2000
    /\ (N.of_nat (length (f_bytes (mkfile [73; 68; 51] 10 10))) < 204288 ->
        delay = 10 * kb)
    /\ (204288 <= N.of_nat (length (f_bytes (mkfile [73; 68; 51] 10 10))) ->
        delay = 2000)
    /\ (N.of_nat (length (f_bytes (mkfile [73; 68; 51] 10 10))) < 512 -> delay = 0).
Proof.
  apply (placeholder_delay_is_capped world_ok one_artifact_state
           (path_join AudioDir (js "audio_1_a.mp3")) (mkfile [73; 68; 51] 10 10)).
  vm_compute. reflexivity.
Defined.

Lemma upload_always_answers_witness :
  st_res (run (post_transcribe (mkrequest (Some sample_upload) None))
              world_conversion_fails uploaded_state)
  = Some (upload_failure_response (js "Invalid data found when processing input")).
Proof.
  apply (proj1 (proj2 (proj2 (upload_always_answers world_conversion_fails
                                uploaded_state
                                (mkrequest (Some sample_upload) None))))).
  - discriminate.
  - reflexivity.
Defined.

(** ** Response headers, and jobs in sequence *)

Lemma valid_filename_plain filename c :
  valid_audio_filename filename = true -> In c filename ->
  c <> 10 /\ c <> 13 /\ c <> 34.
Proof.
  intros Hv Hin.
  destruct (valid_audio_filename_chars filename c Hv Hin) as [Hc | [-> | Hc]].
  - repeat split; intros ->; discriminate Hc.
  - repeat split; discriminate.
  - vm_compute in Hc. repeat split; intros ->; intuition discriminate.
Qed.

(** The headers of a download cannot be broken by the requested name: every
    header value the endpoint sends is free of CR and LF, and in
    [Content-Disposition] the only double quotes are the two that delimit
    the file name. *)
Theorem download_headers_are_well_formed
        (W : World) (s : State) (filename : jsstring) (r : response)
        (k v : jsstring) :
  st_res (run (get_audio_file filename) W s) = Some r ->
  In (k, v) (headers r) ->
  ~ In 13 v /\ ~ In 10 v
  /\ (k = js "Content-Disposition" ->
      v = js "attachment; filename=" ++ [34] ++ filename ++ [34]
      /\ ~ In 34 filename).
Proof.
  intros Hr Hin.
  destruct (valid_audio_filename filename) eqn:Hv.
  - rewrite get_audio_file_valid in Hr by exact Hv.
    destruct (audio (st_fs s) !! filename) as [f|]; injection Hr as <-;
      [|contradiction Hin].
    assert (Hplain : forall c, In c filename -> c <> 10 /\ c <> 13 /\ c <> 34)
      by (intros c; apply valid_filename_plain; exact Hv).
    destruct Hin as [E | [E | []]]; apply pair_equal_spec in E as [<- <-].
    + split; [vm_compute; intuition discriminate|].
      split; [vm_compute; intuition discriminate|].
      intros E. vm_compute in E. discriminate E.
    + split; [|split].
      * rewrite !in_app_iff. intros [H | [H | [H | H]]].
        -- vm_compute in H. intuition discriminate.
        -- vm_compute in H. intuition discriminate.
        -- apply Hplain in H. tauto.
        -- vm_compute in H. intuition discriminate.
      * rewrite !in_app_iff. intros [H | [H | [H | H]]].
        -- vm_compute in H. intuition discriminate.
        -- vm_compute in H. intuition discriminate.
        -- apply Hplain in H. tauto.
        -- vm_compute in H. intuition discriminate.
      * intros _. split; [reflexivity|]. intros H. apply Hplain in H. tauto.
  - rewrite get_audio_file_invalid in Hr by exact Hv. injection Hr as <-.
    contradiction Hin.
Qed.

Lemma download_headers_are_well_formed_witness :
  ~ In 13 (js "attachment; filename=" ++ [34] ++ js "audio_1_a.mp3" ++ [34])
  /\ ~ In 10 (js "attachment; filename=" ++ [34] ++ js "audio_1_a.mp3" ++ [34])
  /\ (js "Content-Disposition" = js "Content-Disposition" ->
      js "attachment; filename=" ++ [34] ++ js "audio_1_a.mp3" ++ [34]
      = js "attachment; filename=" ++ [34] ++ js "audio_1_a.mp3" ++ [34]
      /\ ~ In 34 (js "audio_1_a.mp3")).
Proof.
  refine (download_headers_are_well_formed world_ok one_artifact_state
            (js "audio_1_a.mp3")
            (download_response (js "audio_1_a.mp3") (mkfile [73; 68; 51] 10 10))
            (js "Content-Disposition")
            (js "attachment; filename=" ++ [34] ++ js "audio_1_a.mp3" ++ [34]) _ _).
  - vm_compute. reflexivity.
  - right. left. reflexivity.
Defined.

Lemma audio_mp3_never_temp W1 W2 : audio_mp3_path W1 <> temp_path W2.
Proof. unfold temp_path, audio_mp3_path. intros H. discriminate H. Qed.

(** Artifacts accumulate. When a streaming job has stored its converted
    artifact and a later streaming job runs (at another millisecond or with
    another uuid), the earlier artifact is still there with its bytes
    afterwards, whatever happens to the later job. *)
Theorem later_job_keeps_earlier_artifact
        (W1 W2 : World) (s : State) (data1 data2 : json) (payload : jsstring)
        (bytes : list N) :
  get_prop data1 (js "audioData") = Some (JStr payload) ->
  payload <> [] ->
  writeFile_error W1 = None ->
  ffmpeg_outcome W1 = inr bytes ->
  (Date_now W1, uuidv4 W1) <> (Date_now W2, uuidv4 W2) ->
  exists f,
    fs_lookup (st_fs (run (handleAudioChunk data2) W2
                          (run (handleAudioChunk data1) W1 s)))
              (audio_mp3_path W1) = Some f
    /\ f_bytes f = bytes.
Proof.
  intros Ha Hp Hw Hf Hne.
  assert (H1 : fs_lookup (st_fs (run (handleAudioChunk data1) W1 s))
                         (audio_mp3_path W1)
               = Some (mkfile bytes
                         (match fs_lookup (staged_fs W1 payload (st_fs s))
                                          (audio_mp3_path W1) with
                          | Some old => f_birthtime old
                          | None => fs_clock W1
                          end) (fs_clock W1))).
  { rewrite (handleAudioChunk_converted W1 s data1 payload bytes Ha Hp Hw Hf). mproj.
    rewrite cleanup_fs_lookup_other by apply temp_mp3_distinct.
    apply fs_lookup_put_file_eq. }
  assert (Hmp3 : audio_mp3_path W2 <> audio_mp3_path W1).
  { unfold audio_mp3_path. intros E.
    assert (E' : audio_mp3Filename (Date_now W2) (uuidv4 W2)
                 = audio_mp3Filename (Date_now W1) (uuidv4 W1)) by congruence.
    apply audio_mp3Filename_inj in E' as [E1 E2]. congruence. }
  set (s1 := run (handleAudioChunk data1) W1 s) in *.
  destruct (handleAudioChunk_fs_cases W2 s1 data2)
    as [-> | [(payload2 & ->) | (payload2 & bytes2 & ->)]].
  - eexists. split; [exact H1 | reflexivity].
  - unfold staged_fs.
    rewrite fs_lookup_put_file_ne by (apply not_eq_sym, audio_mp3_never_temp).
    eexists. split; [exact H1 | reflexivity].
  - rewrite cleanup_fs_lookup_other by (apply not_eq_sym, audio_mp3_never_temp).
    rewrite fs_lookup_put_file_ne by exact Hmp3.
    unfold staged_fs.
    rewrite fs_lookup_put_file_ne by (apply not_eq_sym, audio_mp3_never_temp).
    eexists. split; [exact H1 | reflexivity].
Qed.

Lemma later_job_keeps_earlier_artifact_witness :
  exists f,
    fs_lookup (st_fs (run (handleAudioChunk sample_chunk) world_conversion_fails
                          (run (handleAudioChunk sample_chunk)
                               (with_random 0
                                  (mkWorld 1699999999999 (js "t") sample_uuid 0
                                           (fun x => x) 6 None None (inr [1])
                                           (inl []) (inl []) [] []))
                               empty_state)))
              (audio_mp3_path
                 (with_random 0
                    (mkWorld 1699999999999 (js "t") sample_uuid 0
                             (fun x => x) 6 None None (inr [1])
                             (inl []) (inl []) [] [])))
    = Some f
    /\ f_bytes f = [1].
Proof.
  refine (later_job_keeps_earlier_artifact
            (with_random 0
               (mkWorld 1699999999999 (js "t") sample_uuid 0
                        (fun x => x) 6 None None (inr [1])
                        (inl []) (inl []) [] []))
            world_conversion_fails empty_state sample_chunk sample_chunk
            (js "data:audio/wav;base64,UklGRg==") [1] _ _ _ _ _).
  - vm_compute. reflexivity.
  - vm_compute. discriminate.
  - reflexivity.
  - reflexivity.
  - intros E. apply (f_equal fst) in E. vm_compute in E. discriminate E.
Defined.
